(** * Task manager: the skill engine

    A shallow embedding of the five skills of the task manager
    (skills/priority.py, helper/cleanup.py, skills/search.py,
    skills/daily_brief.py, skills/reporter.py) over a model of the
    SQLModel session they run against, with the properties of the
    specification stated and settled against that embedding.

    Conventions.
    - A Python [int] is a [Z]; a [str] is the [string] of the bytes of its
      UTF-8 encoding, one [ascii] per character for ASCII text.
    - A [datetime] is its reading in microseconds since the epoch, together
      with its [tzinfo] ([None] for a naive value).  The only time zone the
      program builds is [timezone.utc], and a DateTime column keeps no
      offset, so every reading is a UTC reading.
    - A [timedelta] is a number of microseconds.
    - The session is the table of task rows as the open transaction sees
      it, with the dialect of the engine it is bound to.  The engine is
      configured outside the skills; the two places where the queries of
      the skills depend on it (LIKE and the rank of NULL in ORDER BY) are
      fields of [Dialect]. *)

From Stdlib Require Import ZArith List String Ascii Bool Lia.
From Stdlib Require Import Permutation Sorted Decimal DecimalString.
Import ListNotations.

Local Open Scope string_scope.
Local Open Scope list_scope.
Local Open Scope Z_scope.

(** ** Dates and durations (module datetime) *)

Inductive timezone : Type := utc.

Record datetime : Type := mk_datetime {
  timestamp : Z;
  tzinfo : option timezone
}.

Definition timedelta : Type := Z.

Definition usec_per_second : Z := 1000000.
Definition usec_per_day : Z := 86400 * usec_per_second.

(** [timedelta(days=n)]. *)
Definition timedelta_days (n : Z) : timedelta := n * usec_per_day.

(** [td.days]: a timedelta is normalised with [0 <= seconds < 86400], so
    its [days] field is the floor of the duration in days. *)
Definition days (td : timedelta) : Z := td / usec_per_day.

(** [td.total_seconds() < n] for an integer literal [n].  The float
    [total_seconds()] is the correctly rounded quotient of the duration in
    microseconds by 10^6; two durations a microsecond apart are many ulps
    apart near the thresholds the skills use, so the comparison is the
    exact one on microseconds. *)
Definition total_seconds_lt (td : timedelta) (n : Z) : bool :=
  td <? n * usec_per_second.

Inductive exn : Type := TypeError.

Definition is_none {A : Type} (o : option A) : bool :=
  match o with None => true | Some _ => false end.

(** [d.replace(tzinfo=tz)]: the reading is kept. *)
Definition replace_tzinfo (d : datetime) (tz : timezone) : datetime :=
  {| timestamp := timestamp d; tzinfo := Some tz |}.

(** [a - b]: raises [TypeError] when one operand is naive and the other
    aware. *)
Definition dt_sub (a b : datetime) : exn + timedelta :=
  if Bool.eqb (is_none (tzinfo a)) (is_none (tzinfo b))
  then inr (timestamp a - timestamp b)
  else inl TypeError.

(** [a < b]: same restriction as the subtraction. *)
Definition dt_lt (a b : datetime) : exn + bool :=
  if Bool.eqb (is_none (tzinfo a)) (is_none (tzinfo b))
  then inr (timestamp a <? timestamp b)
  else inl TypeError.

(** [d + td]. *)
Definition dt_add (d : datetime) (td : timedelta) : datetime :=
  {| timestamp := timestamp d + td; tzinfo := tzinfo d |}.

(** [datetime.now(timezone.utc)], for a clock that reads [clock]. *)
Definition datetime_now_utc (clock : Z) : datetime :=
  {| timestamp := clock; tzinfo := Some utc |}.

(** ** The task table (models.py) *)

Record Task : Type := mk_Task {
  id : Z;
  title : string;
  description : option string;
  status : string;
  due_date : option datetime;
  priority : Z;
  created_at : datetime;
  updated_at : datetime
}.

(** [task.priority = p]. *)
Definition set_priority (t : Task) (p : Z) : Task :=
  {| id := id t; title := title t; description := description t;
     status := status t; due_date := due_date t; priority := p;
     created_at := created_at t; updated_at := updated_at t |}.

(** [id] is the primary key of the table. *)
Definition pk_unique (rows : list Task) : Prop := NoDup (map id rows).

(** [Field(ge=1, le=5)]. *)
Definition priority_in_range (t : Task) : Prop := 1 <= priority t <= 5.

(** ** The session *)

Record Dialect : Type := mk_Dialect {
  like_case_sensitive : bool;
  nulls_smallest : bool
}.

(** SQLite, the engine the tests create: LIKE ignores the case of ASCII
    letters and NULL ranks below every value. *)
Definition sqlite : Dialect :=
  {| like_case_sensitive := false; nulls_smallest := true |}.

(** PostgreSQL: LIKE compares characters exactly and NULL ranks above every
    value. *)
Definition postgresql : Dialect :=
  {| like_case_sensitive := true; nulls_smallest := false |}.

Record Session : Type := mk_Session {
  bind : Dialect;
  table : list Task
}.

Definition with_table (s : Session) (rows : list Task) : Session :=
  {| bind := bind s; table := rows |}.

(** The outcome of running a skill: it returns a value and leaves a
    session, or an exception escapes. *)
Inductive outcome (A : Type) : Type :=
| Returned (a : A) (s : Session)
| Raised (e : exn).
Arguments Returned {A} a s.
Arguments Raised {A} e.

Definition M (A : Type) : Type := Session -> outcome A.

Definition ret {A : Type} (a : A) : M A := fun s => Returned a s.

Definition mbind {A B : Type} (m : M A) (k : A -> M B) : M B :=
  fun s => match m s with
           | Returned a s' => k a s'
           | Raised e => Raised e
           end.

Definition lift {A : Type} (r : exn + A) : M A :=
  fun s => match r with inr a => Returned a s | inl e => Raised e end.

Notation "x <- m ;; k" := (mbind m (fun x => k))
  (at level 61, m at next level, right associativity).
Notation "m ;;; k" := (mbind m (fun _ => k))
  (at level 61, right associativity).

(** [for x in xs: acc = body(acc, x)]. *)
Fixpoint for_each {A B : Type} (xs : list A) (acc : B) (body : B -> A -> M B)
  : M B :=
  match xs with
  | [] => ret acc
  | x :: xs' => acc' <- body acc x ;; for_each xs' acc' body
  end.

(** ** SQL expressions

    A condition evaluates to TRUE, FALSE or NULL; [None] is NULL. *)

Definition sql_bool : Type := option bool.

Definition sql_or (a b : sql_bool) : sql_bool :=
  match a, b with
  | Some true, _ | _, Some true => Some true
  | Some false, Some false => Some false
  | _, _ => None
  end.

Definition sql_and (a b : sql_bool) : sql_bool :=
  match a, b with
  | Some false, _ | _, Some false => Some false
  | Some true, Some true => Some true
  | _, _ => None
  end.

(** A WHERE clause keeps the rows on which its condition is TRUE. *)
Definition sql_true (b : sql_bool) : bool :=
  match b with Some true => true | _ => false end.

(** [column == literal] and [column != literal] on a NOT NULL text
    column. *)
Definition col_eq (v : string) (lit : string) : sql_bool :=
  Some (String.eqb v lit).

Definition col_ne (v : string) (lit : string) : sql_bool :=
  Some (negb (String.eqb v lit)).

(** [column <= bound] on a nullable DateTime column; the column keeps no
    offset and the comparison is on the stored readings. *)
Definition col_le (v : option datetime) (bound : datetime) : sql_bool :=
  match v with
  | None => None
  | Some d => Some (timestamp d <=? timestamp bound)
  end.

(** *** LIKE

    [%] stands for any run of characters, [_] for any one character; no
    escape character is set.  SQLite folds the case of ASCII letters.

    [like] is the matcher the engines share on the texts they all take
    alike.  Outside of them the engines part: SQLite reads a pattern and a
    text up to their first NUL character and refuses a pattern of more than
    50000 bytes, PostgreSQL holds no NUL character and reads a backslash in
    a pattern as an escape, and [_] stands for one character where [like]
    takes one byte, which is the same for ASCII text only.  The theorems
    that rest on what [like] answers name the texts they are about
    ([like_safe], [plain_query], [nul_free] below). *)

Definition to_lower (c : ascii) : ascii :=
  let n := N_of_ascii c in
  if ((65 <=? n) && (n <=? 90))%N then ascii_of_N (n + 32) else c.

Definition like_char_eq (cs : bool) (a b : ascii) : bool :=
  if cs then Ascii.eqb a b else Ascii.eqb (to_lower a) (to_lower b).

Definition percent : ascii := "%"%char.
Definition underscore : ascii := "_"%char.

Fixpoint like (cs : bool) (pat s : string) {struct pat} : bool :=
  match pat with
  | EmptyString =>
      match s with EmptyString => true | String _ _ => false end
  | String p pat' =>
      if Ascii.eqb p percent then
        (fix skip (s : string) : bool :=
           like cs pat' s ||
           match s with
           | EmptyString => false
           | String _ s' => skip s'
           end) s
      else
        match s with
        | EmptyString => false
        | String c s' =>
            (Ascii.eqb p underscore || like_char_eq cs p c) && like cs pat' s'
        end
  end.

(** ['%' || query || '%']. *)
Definition contains_pattern (query : string) : string :=
  String percent (query ++ String percent EmptyString).

(** [column.contains(query)] is [column LIKE '%' || query || '%'], with the
    query spliced in as it is; it is NULL on a NULL column. *)
Definition col_contains (d : Dialect) (v : option string) (query : string)
  : sql_bool :=
  match v with
  | None => None
  | Some s => Some (like (like_case_sensitive d) (contains_pattern query) s)
  end.

(** *** ORDER BY *)

Record order_term : Type := mk_order_term {
  column : Task -> option Z;
  descending : bool
}.

Definition asc (c : Task -> option Z) : order_term :=
  {| column := c; descending := false |}.
Definition desc (c : Task -> option Z) : order_term :=
  {| column := c; descending := true |}.

Definition key_cmp (d : Dialect) (a b : option Z) : comparison :=
  match a, b with
  | None, None => Eq
  | None, Some _ => if nulls_smallest d then Lt else Gt
  | Some _, None => if nulls_smallest d then Gt else Lt
  | Some x, Some y => x ?= y
  end.

Definition term_cmp (d : Dialect) (tm : order_term) (t1 t2 : Task)
  : comparison :=
  let c := key_cmp d (column tm t1) (column tm t2) in
  if descending tm then CompOpp c else c.

Fixpoint row_cmp (d : Dialect) (terms : list order_term) (t1 t2 : Task)
  : comparison :=
  match terms with
  | [] => Eq
  | tm :: rest =>
      match term_cmp d tm t1 t2 with
      | Eq => row_cmp d rest t1 t2
      | c => c
      end
  end.

Definition row_le (d : Dialect) (terms : list order_term) (t1 t2 : Task)
  : bool :=
  match row_cmp d terms t1 t2 with Gt => false | _ => true end.

Fixpoint insert_row (d : Dialect) (terms : list order_term) (x : Task)
  (rows : list Task) : list Task :=
  match rows with
  | [] => [x]
  | y :: rows' =>
      if row_le d terms x y then x :: y :: rows'
      else y :: insert_row d terms x rows'
  end.

(** Rows that compare equal keep the order of the scan; SQL leaves their
    order open, and the theorems below rely on no more than sortedness. *)
Fixpoint order_by (d : Dialect) (terms : list order_term) (rows : list Task)
  : list Task :=
  match rows with
  | [] => []
  | x :: rows' => insert_row d terms x (order_by d terms rows')
  end.

(** The sort keys of the two columns the skills order by. *)
Definition priority_key (t : Task) : option Z := Some (priority t).
Definition due_date_key (t : Task) : option Z :=
  option_map timestamp (due_date t).

(** *** Statements and the session API *)

Record Select : Type := mk_Select {
  where_clause : Dialect -> Task -> sql_bool;
  order_by_clause : list order_term
}.

(** [select(Task)]. *)
Definition select_Task : Select :=
  {| where_clause := fun _ _ => Some true; order_by_clause := [] |}.

(** [stmt.where(cond)]. *)
Definition where_ (stmt : Select) (cond : Dialect -> Task -> sql_bool)
  : Select :=
  {| where_clause := fun d t => sql_and (where_clause stmt d t) (cond d t);
     order_by_clause := order_by_clause stmt |}.

(** [stmt.order_by(terms)]. *)
Definition order_by_ (stmt : Select) (terms : list order_term) : Select :=
  {| where_clause := where_clause stmt;
     order_by_clause := order_by_clause stmt ++ terms |}.

(** [session.exec(stmt).all()]. *)
Definition session_exec (stmt : Select) : M (list Task) :=
  fun s =>
    Returned
      (order_by (bind s) (order_by_clause stmt)
         (filter (fun t => sql_true (where_clause stmt (bind s) t)) (table s)))
      s.

(** [task.field = v; session.add(task)] for a task loaded from the
    session: the row with the key of [t] takes the state of [t]. *)
Definition session_add (t : Task) : M unit :=
  fun s =>
    Returned tt
      (with_table s (map (fun r => if id r =? id t then t else r) (table s))).

(** [session.delete(task)]: the row with the key of [t] goes. *)
Definition session_delete (t : Task) : M unit :=
  fun s =>
    Returned tt
      (with_table s (filter (fun r => negb (id r =? id t)) (table s))).

(** [session.commit()]: the table of the transaction becomes the table. *)
Definition session_commit : M unit := ret tt.

(** ** skills/priority.py *)

(** The body of the loop over the loaded tasks. *)
Definition prioritize_task (now : datetime) (updated_count : Z) (task : Task)
  : M Z :=
  match due_date task with
  | Some d =>
      let due_date :=
        if is_none (tzinfo d) then replace_tzinfo d utc else d in
      diff <- lift (dt_sub due_date now) ;;
      let new_priority :=
        if total_seconds_lt diff 86400 then 5
        else if total_seconds_lt diff 259200 then 4
        else if total_seconds_lt diff 604800 then 3
        else priority task in
      if negb (new_priority =? priority task) then
        session_add (set_priority task new_priority) ;;;
        ret (updated_count + 1)
      else ret updated_count
  | None => ret updated_count
  end.

Definition auto_prioritize_tasks (clock : Z) : M Z :=
  let now := datetime_now_utc clock in
  let statement :=
    where_ select_Task (fun _ t => col_ne (status t) "completed") in
  tasks <- session_exec statement ;;
  updated_count <- for_each tasks 0 (prioritize_task now) ;;
  session_commit ;;;
  ret updated_count.

(** ** helper/cleanup.py *)

(** The body of the loop over the loaded tasks. *)
Definition archive_task (now : datetime) (days_old : Z) (deleted_count : Z)
  (task : Task) : M Z :=
  let updated_at :=
    if is_none (tzinfo (updated_at task))
    then replace_tzinfo (updated_at task) utc
    else updated_at task in
  age <- lift (dt_sub now updated_at) ;;
  let diff := days age in
  if days_old <=? diff then
    session_delete task ;;;
    ret (deleted_count + 1)
  else ret deleted_count.

Definition archive_completed_tasks (clock : Z) (days_old : Z) : M Z :=
  let now := datetime_now_utc clock in
  let statement :=
    where_ select_Task (fun _ t => col_eq (status t) "completed") in
  tasks <- session_exec statement ;;
  deleted_count <- for_each tasks 0 (archive_task now days_old) ;;
  session_commit ;;;
  ret deleted_count.

(** ** skills/search.py *)

Definition advanced_search (query : string) : M (list Task) :=
  let statement :=
    where_ select_Task (fun d t =>
      sql_or (col_contains d (Some (title t)) query)
             (col_contains d (description t) query)) in
  results <- session_exec statement ;;
  ret results.

(** ** Text *)

Definition nl : string := String "010"%char EmptyString.

(** [str(n)] for an int. *)
Definition str_int (n : Z) : string := NilZero.string_of_int (Z.to_int n).

(** [s * n]: empty when [n <= 0]. *)
Definition str_repeat (s : string) (n : Z) : string :=
  String.concat EmptyString (repeat s (Z.to_nat n)).

(** [dict.get(key, default)] on a dict literal. *)
Fixpoint dict_get (d : list (string * string)) (key default : string)
  : string :=
  match d with
  | [] => default
  | (k, v) :: d' => if String.eqb k key then v else dict_get d' key default
  end.

Fixpoint zero_pad (width : nat) (s : string) : string :=
  match width with
  | O => s
  | S w => if (String.length s <=? w)%nat then zero_pad w (String "0"%char s)
           else s
  end.

(** The proleptic Gregorian date (year, month, day) of a day number counted
    from 1970-01-01. *)
Definition civil_from_days (z : Z) : Z * Z * Z :=
  let z := z + 719468 in
  let era := z / 146097 in
  let doe := z - era * 146097 in
  let yoe := (doe - doe / 1460 + doe / 36524 - doe / 146096) / 365 in
  let doy := doe - (365 * yoe + yoe / 4 - yoe / 100) in
  let mp := (5 * doy + 2) / 153 in
  let d := doy - (153 * mp + 2) / 5 + 1 in
  let m := if mp <? 10 then mp + 3 else mp - 9 in
  let y := yoe + era * 400 in
  (if m <=? 2 then y + 1 else y, m, d).

(** [d.strftime("%Y-%m-%d %H:%M")]. *)
Definition strftime_minutes (d : datetime) : string :=
  let '(y, m, dd) := civil_from_days (timestamp d / usec_per_day) in
  let secs := (timestamp d mod usec_per_day) / usec_per_second in
  (zero_pad 4 (str_int y) ++ "-" ++ zero_pad 2 (str_int m) ++ "-" ++
   zero_pad 2 (str_int dd) ++ " " ++ zero_pad 2 (str_int (secs / 3600)) ++
   ":" ++ zero_pad 2 (str_int ((secs mod 3600) / 60)))%string.

(** ** skills/daily_brief.py *)

Definition all_caught_up : string :=
  "You're all caught up! No tasks due today.".

(** The body of the loop over the selected tasks; [x and y] is [x] when
    [x] is [None]. *)
Definition brief_line (now : datetime) (brief : string) (task : Task)
  : M string :=
  overdue <-
    match due_date task with
    | Some d => lift (dt_lt (replace_tzinfo d utc) now)
    | None => ret false
    end ;;
  let due_str := if overdue : bool then "Overdue!" else "Due today" in
  ret (brief ++ "- [" ++ str_int (priority task) ++ "] " ++
       title task ++ " (" ++ due_str ++ ")" ++ nl)%string.

Definition get_daily_brief (clock : Z) : M string :=
  let now := datetime_now_utc clock in
  let today_end := dt_add now (timedelta_days 1) in
  let statement :=
    order_by_
      (where_ select_Task (fun _ t =>
         sql_and (col_ne (status t) "completed")
                 (col_le (due_date t) today_end)))
      [asc due_date_key] in
  tasks <- session_exec statement ;;
  match tasks with
  | [] => ret all_caught_up
  | _ :: _ =>
      let brief :=
        ("Good morning! You have " ++ str_int (Z.of_nat (List.length tasks)) ++
         " tasks needing attention today:" ++ nl)%string in
      for_each tasks brief (brief_line now)
  end.

(** ** skills/reporter.py *)

(** The text of [f"{Session}"], the class itself being formatted. *)
Definition Session_repr : string := "<class 'sqlmodel.orm.session.Session'>".

(** The emoji are the UTF-8 bytes of the literals of the source. *)
Definition status_emoji : list (string * string) :=
  [ ("todo", "📅"); ("in_progress", "🚧"); ("completed", "✅");
    ("overdue", "🚨") ].

(** The body of the loop over the tasks. *)
Definition report_row (report : string) (task : Task) : M string :=
  let emoji := dict_get status_emoji (status task) "📝" in
  let due :=
    match due_date task with
    | Some d => strftime_minutes d
    | None => "No deadline"
    end in
  ret (report ++ "| " ++ emoji ++ " " ++ status task ++ " | " ++
       str_repeat "⭐" (priority task) ++ " | " ++ title task ++ " | " ++
       due ++ " |" ++ nl)%string.

Definition generate_markdown_report : M string :=
  let statement :=
    order_by_ select_Task [desc priority_key; asc due_date_key] in
  tasks <- session_exec statement ;;
  let report := ("# Task Management Report" ++ nl ++ nl)%string in
  let report :=
    (report ++ "Generated on: " ++ Session_repr ++ nl ++ nl)%string in
  let report :=
    (report ++ "| Status | Priority | Title | Due Date |" ++ nl)%string in
  let report := (report ++ "| --- | --- | --- | --- |" ++ nl)%string in
  for_each tasks report report_row.


(** ** The properties of the specification, in its words *)

Definition hours (n : Z) : timedelta := n * 3600 * usec_per_second.

(** [due_date - now], for a clock that reads [clock]. *)
Definition time_left (clock : Z) (d : datetime) : timedelta :=
  timestamp d - clock.

(** What the prioritization pass does to one task: only the priority can
    move, a completed task is left alone, and a task that is not completed
    gets the priority of its band. *)
Definition prioritized (clock : Z) (t t' : Task) : Prop :=
  t' = set_priority t (priority t') /\
  (status t = "completed" -> priority t' = priority t) /\
  (status t <> "completed" ->
   match due_date t with
   | None => priority t' = priority t
   | Some d =>
       (time_left clock d < hours 24 -> priority t' = 5) /\
       (hours 24 <= time_left clock d < timedelta_days 3 ->
        priority t' = 4) /\
       (timedelta_days 3 <= time_left clock d < timedelta_days 7 ->
        priority t' = 3) /\
       (timedelta_days 7 <= time_left clock d -> priority t' = priority t)
   end).

Definition priority_changed (p : Task * Task) : bool :=
  negb (priority (fst p) =? priority (snd p)).

(** The pass in closed form, for the proofs.  The priority the loop
    computes for a task it has loaded: *)
Definition band_priority (clock : Z) (t : Task) : Z :=
  match due_date t with
  | None => priority t
  | Some d =>
      if total_seconds_lt (time_left clock d) 86400 then 5
      else if total_seconds_lt (time_left clock d) 259200 then 4
      else if total_seconds_lt (time_left clock d) 604800 then 3
      else priority t
  end.

(** the pass on one row of the table: *)
Definition reprioritize (clock : Z) (t : Task) : Task :=
  if String.eqb (status t) "completed" then t
  else set_priority t (band_priority clock t).

(** the tasks the pass loads, and those among them it writes: *)
Definition not_completed (t : Task) : bool :=
  negb (String.eqb (status t) "completed").

Definition priority_moves (clock : Z) (t : Task) : bool :=
  negb (band_priority clock t =? priority t).

Definition prioritize_write (clock : Z) (t : Task) : option Task :=
  if priority_moves clock t
  then Some (set_priority t (band_priority clock t))
  else None.

(** What a row [r] becomes when the loop has gone over the task [x],
    writing [x'] when [w x = Some x']. *)
Definition write_row (w : Task -> option Task) (r x : Task) : Task :=
  match w x with
  | Some x' => if id r =? id x then x' else r
  | None => r
  end.

(** ** Sample data, after tests/test_skills.py *)

Definition naive (ts : Z) : datetime := {| timestamp := ts; tzinfo := None |}.

(** 2025-11-03 00:00:00 UTC. *)
Definition clock0 : Z := 1762128000 * usec_per_second.

Definition sample_task (i : Z) (ti : string) (de : option string)
  (st : string) (du : option datetime) (up : datetime) : Task :=
  {| id := i; title := ti; description := de; status := st; due_date := du;
     priority := 1; created_at := up; updated_at := up |}.

Definition sample_rows : list Task :=
  [ sample_task 1 "Due soon" None "todo"
      (Some (naive (clock0 + hours 1))) (naive clock0);
    sample_task 2 "Due later" None "todo"
      (Some (naive (clock0 + timedelta_days 5))) (naive clock0);
    sample_task 3 "Old" None "completed" None
      (naive (clock0 - timedelta_days 10));
    sample_task 4 "New" None "completed" None
      (naive (clock0 - timedelta_days 1));
    sample_task 5 "Urgent" None "todo"
      (Some (naive (clock0 - hours 1))) (naive clock0) ].

Definition sample_session : Session :=
  {| bind := sqlite; table := sample_rows |}.

(** A task that is due in an hour and was last touched two days ago. *)
Definition untouched_session : Session :=
  {| bind := sqlite;
     table := [ {| id := 1; title := "Due soon"; description := None;
                   status := "todo";
                   due_date := Some (naive (clock0 + hours 1));
                   priority := 1;
                   created_at := naive (clock0 - timedelta_days 2);
                   updated_at := naive (clock0 - timedelta_days 2) |} ] |}.

(** ** Cleanup, in the words of the specification *)

(** The task is completed and its [updated_at] is at least [days_old] days
    before now. *)
Definition expired (clock days_old : Z) (t : Task) : bool :=
  String.eqb (status t) "completed" &&
  (timedelta_days days_old <=? clock - timestamp (updated_at t)).

(** The test of the loop of the cleanup, and the tasks it loads. *)
Definition stale (clock days_old : Z) (t : Task) : bool :=
  days_old <=? days (clock - timestamp (updated_at t)).

Definition completed (t : Task) : bool := String.eqb (status t) "completed".

(** A completed task whose [updated_at] is one microsecond ahead of the
    clock. *)
Definition future_task : Task :=
  {| id := 1; title := "Done"; description := None; status := "completed";
     due_date := None; priority := 1;
     created_at := naive clock0; updated_at := naive (clock0 + 1) |}.

Definition future_session : Session :=
  {| bind := sqlite; table := [future_task] |}.

(** ** Search, in the words of the specification *)

(** [q] occurs in [s] as a substring. *)
Definition substring_of (q s : string) : Prop :=
  exists pre post, s = (pre ++ q ++ post)%string.

Definition is_wildcard (c : ascii) : bool :=
  Ascii.eqb c percent || Ascii.eqb c underscore.

(** The NUL character and the backslash. *)
Definition nul : ascii := "000"%char.
Definition backslash : ascii := "092"%char.

Fixpoint has_char (c : ascii) (s : string) : bool :=
  match s with
  | EmptyString => false
  | String d s' => Ascii.eqb d c || has_char c s'
  end.

(** The text holds no NUL character. *)
Definition nul_free (s : string) : bool := negb (has_char nul s).

(** Neither the title nor the description of the task holds a NUL
    character. *)
Definition nul_free_task (t : Task) : bool :=
  nul_free (title t) &&
  match description t with
  | Some de => nul_free de
  | None => true
  end.

(** The longest pattern SQLite takes, in bytes. *)
Definition like_pattern_limit : Z := 50000.

(** A query every engine reads as it is written, its wildcards apart: it
    holds no NUL character and no backslash, and its pattern is within the
    limit. *)
Definition like_safe (q : string) : bool :=
  nul_free q && negb (has_char backslash q) &&
  (Z.of_nat (String.length (contains_pattern q)) <=? like_pattern_limit).

Fixpoint no_wildcard (q : string) : bool :=
  match q with
  | EmptyString => true
  | String c q' => negb (is_wildcard c) && no_wildcard q'
  end.

(** A query that is plain text to every engine: no wildcard, and safe. *)
Definition plain_query (q : string) : bool := no_wildcard q && like_safe q.

(** The text as LIKE compares it: as it is when LIKE is case-sensitive,
    with its ASCII letters in lower case when it is not. *)
Definition fold_char (cs : bool) (c : ascii) : ascii :=
  if cs then c else to_lower c.

Fixpoint fold_case (cs : bool) (s : string) : string :=
  match s with
  | EmptyString => EmptyString
  | String c s' => String (fold_char cs c) (fold_case cs s')
  end.

(** [q] at the head of [s], and [q] somewhere in [s], character by
    character as LIKE compares them. *)
Fixpoint starts_with (cs : bool) (q s : string) : bool :=
  match q with
  | EmptyString => true
  | String c q' =>
      match s with
      | EmptyString => false
      | String d s' => like_char_eq cs c d && starts_with cs q' s'
      end
  end.

Fixpoint occurs (cs : bool) (q s : string) : bool :=
  starts_with cs q s ||
  match s with
  | EmptyString => false
  | String _ s' => occurs cs q s'
  end.

(** The WHERE clause of the search. *)
Definition search_matches (d : Dialect) (query : string) (t : Task) : bool :=
  sql_true (sql_or (col_contains d (Some (title t)) query)
                  (col_contains d (description t) query)).

(** The two tasks of the test of the search. *)
Definition buy_milk : Task :=
  sample_task 1 "Buy Milk" (Some "From the store") "todo" None (naive clock0).
Definition work : Task :=
  sample_task 2 "Work" (Some "On the project") "todo" None (naive clock0).
Definition milk_rows : list Task := [buy_milk; work].

(** A task with no description. *)
Definition bare_work : Task :=
  sample_task 1 "Work" None "todo" None (naive clock0).

(** ** Daily brief, in the words of the specification *)

(** The lines of a text, one after the other. *)
Definition lines (ls : list string) : string :=
  fold_right String.append EmptyString ls.

(** Not completed, and due no later than 24 hours from now. *)
Definition brief_selected (clock : Z) (t : Task) : bool :=
  negb (String.eqb (status t) "completed") &&
  match due_date t with
  | Some d => timestamp d <=? clock + timedelta_days 1
  | None => false
  end.

(** Both tasks have a due date, and the first is due no later than the
    second. *)
Definition due_ascending (t1 t2 : Task) : Prop :=
  exists a b,
    due_date t1 = Some a /\ due_date t2 = Some b /\
    timestamp a <= timestamp b.

Definition brief_label (clock : Z) (t : Task) : string :=
  match due_date t with
  | Some d => if timestamp d <? clock then "Overdue!" else "Due today"
  | None => "Due today"
  end.

Definition brief_entry (clock : Z) (t : Task) : string :=
  ("- [" ++ str_int (priority t) ++ "] " ++ title t ++
   " (" ++ brief_label clock t ++ ")" ++ nl)%string.

Definition brief_header (count : nat) : string :=
  ("Good morning! You have " ++ str_int (Z.of_nat count) ++
   " tasks needing attention today:" ++ nl)%string.

(** The tasks the brief lists, in the order it lists them. *)
Definition brief_tasks (clock : Z) (s : Session) : list Task :=
  order_by (bind s) [asc due_date_key]
    (filter (brief_selected clock) (table s)).

(** ** Report, in the words of the specification *)

(** The order of two due dates in ascending order, NULL first or last. *)
Definition due_first (nulls_first : bool) (a b : option datetime) : Prop :=
  match a, b with
  | Some x, Some y => timestamp x <= timestamp y
  | None, None => True
  | None, Some _ => nulls_first = true
  | Some _, None => nulls_first = false
  end.

(** Priority descending, then due date ascending.  With [nulls_first] at
    [false] the tasks with no due date are last in their tier. *)
Definition report_before (nulls_first : bool) (t1 t2 : Task) : Prop :=
  priority t2 < priority t1 \/
  (priority t1 = priority t2 /\
   due_first nulls_first (due_date t1) (due_date t2)).

Definition report_preamble : string :=
  ("# Task Management Report" ++ nl ++ nl ++
   "Generated on: " ++ Session_repr ++ nl ++ nl ++
   "| Status | Priority | Title | Due Date |" ++ nl ++
   "| --- | --- | --- | --- |" ++ nl)%string.

Definition report_line (t : Task) : string :=
  ("| " ++ dict_get status_emoji (status t) "📝" ++ " " ++ status t ++
   " | " ++ str_repeat "⭐" (priority t) ++ " | " ++ title t ++ " | " ++
   match due_date t with
   | Some d => strftime_minutes d
   | None => "No deadline"
   end ++ " |" ++ nl)%string.

(** Two tasks of one priority, the first of the table with a due date and
    the second with none. *)
Definition dated : Task :=
  sample_task 1 "Dated" None "todo" (Some (naive clock0)) (naive clock0).
Definition undated : Task :=
  sample_task 2 "Undated" None "todo" None (naive clock0).
Definition tier_session : Session :=
  {| bind := sqlite; table := [dated; undated] |}.

(** The tasks the report lists, in the order it lists them. *)
Definition report_tasks (s : Session) : list Task :=
  order_by (bind s) [desc priority_key; asc due_date_key] (table s).

(** ** Further properties of the skills, in plain terms *)

(** The task is not completed and has a due date: the tasks the
    prioritization pass can write. *)
Definition can_be_prioritized (t : Task) : bool :=
  not_completed t && negb (is_none (due_date t)).

(** The task is due before now. *)
Definition overdue (clock : Z) (t : Task) : bool :=
  match due_date t with
  | Some d => timestamp d <? clock
  | None => false
  end.

(** ** models.py: the request bodies

    [TaskCreate] is [TaskBase]: the fields of a task the client supplies,
    with the defaults filled in.  In [TaskUpdate] every field is optional,
    and the update distinguishes a field the request did not set, which
    [model_dump(exclude_unset=True)] leaves out ([None] here), from a field
    the request set, to null ([Some None]) or to a value
    ([Some (Some v)]). *)

Module TaskCreate.

Record t : Type := mk {
  title : string;
  description : option string;
  status : string;
  due_date : option datetime;
  priority : Z
}.

(** [Field(ge=1, le=5)], checked when the body is parsed. *)
Definition valid (task : t) : Prop := 1 <= priority task <= 5.

End TaskCreate.

Module TaskUpdate.

Record t : Type := mk {
  title : option (option string);
  description : option (option string);
  status : option (option string);
  due_date : option (option datetime);
  priority : option (option Z)
}.

(** The request sets to null a column that is NOT NULL in the table. *)
Definition nulls_required (task : t) : bool :=
  match title task, status task, priority task with
  | Some None, _, _ | _, Some None, _ | _, _, Some None => true
  | _, _, _ => false
  end.

(** The priority of the request, when there is one, fits an INTEGER
    column of every engine. *)
Definition storable (task : t) : Prop :=
  match priority task with
  | Some (Some p) => - 2147483648 <= p <= 2147483647
  | _ => True
  end.

End TaskUpdate.

(** ** main.py: the task endpoints *)

Inductive failure : Type :=
| HTTPException (status_code : Z) (detail : string)
| IntegrityError
| InvalidRequestError
| Unhandled (e : exn)
| RequestValidationError
| ResponseValidationError.

(** What an endpoint does: it replies and leaves a session, or it fails,
    and the session is as the failure leaves it: as it was when nothing
    was committed, as committed when the failure comes after the commit. *)
Inductive response (A : Type) : Type :=
| Replied (a : A) (s : Session)
| Failed (e : failure) (s : Session).
Arguments Replied {A} a s.
Arguments Failed {A} e s.

Definition endpoint (A : Type) : Type := Session -> response A.

Definition reply {A : Type} (a : A) : endpoint A := fun s => Replied a s.

Definition raise {A : Type} (e : failure) : endpoint A :=
  fun s => Failed e s.

Definition ebind {A B : Type} (m : endpoint A) (k : A -> endpoint B)
  : endpoint B :=
  fun s => match m s with
           | Replied a s' => k a s'
           | Failed e s' => Failed e s'
           end.

(** A call of the session API from an endpoint. *)
Definition call {A : Type} (m : M A) : endpoint A :=
  fun s => match m s with
           | Returned a s' => Replied a s'
           | Raised e => Failed (Unhandled e) s
           end.

Notation "x <~ m ;; k" := (ebind m (fun x => k))
  (at level 61, m at next level, right associativity).

(** The reply or the failure, without the session. *)
Definition answer {A : Type} (r : response A) : failure + A :=
  match r with
  | Replied a _ => inr a
  | Failed e _ => inl e
  end.

Definition not_found : failure := HTTPException 404 "Task not found".

(** The row has the key [k]. *)
Definition by_key (k : Z) (r : Task) : bool := id r =? k.

(** [session.get(Task, task_id)]: the row of that key, or [None]. *)
Definition session_get (task_id : Z) : M (option Task) :=
  fun s => Returned (find (fun r => id r =? task_id) (table s)) s.

(** What a DateTime column gives back of a value written to it: the
    reading, with no time zone. *)
Definition stored (d : datetime) : datetime :=
  {| timestamp := timestamp d; tzinfo := None |}.

(** The row a task is written as. *)
Definition as_row (t : Task) : Task :=
  {| id := id t; title := title t; description := description t;
     status := status t; due_date := option_map stored (due_date t);
     priority := priority t; created_at := stored (created_at t);
     updated_at := stored (updated_at t) |}.

(** [session.add(task); session.commit()] for a new task: the row is
    inserted under its key; a key already in the table fails the
    insertion. *)
Definition session_insert (t : Task) : endpoint unit :=
  fun s =>
    if existsb (fun r => id r =? id t) (table s)
    then Failed IntegrityError s
    else Replied tt (with_table s (table s ++ [as_row t])).

(** [session.refresh(task)]: the task takes the state of its row. *)
Definition session_refresh (t : Task) : endpoint Task :=
  fun s =>
    match find (fun r => id r =? id t) (table s) with
    | Some r => Replied r s
    | None => Failed InvalidRequestError s
    end.

(** [create_task]: [new_id] is the key the store gives the new row, and
    [created] and [updated] are the two readings of the clock that the
    defaults of [created_at] and [updated_at] take. *)
Definition create_task (task : TaskCreate.t) (new_id created updated : Z)
  : endpoint Task :=
  let db_task :=
    {| id := new_id;
       title := TaskCreate.title task;
       description := TaskCreate.description task;
       status := TaskCreate.status task;
       due_date := TaskCreate.due_date task;
       priority := TaskCreate.priority task;
       created_at := naive created;
       updated_at := naive updated |} in
  _ <~ session_insert db_task ;;
  _ <~ call session_commit ;;
  db_task <~ session_refresh db_task ;;
  reply db_task.


(** [TaskRead] takes over [Field(ge=1, le=5)] from [TaskBase]: a task
    passes as a [TaskRead] when its priority is in [1,5]; its other
    fields have the types [TaskRead] asks for. *)
Definition validates_as_TaskRead (t : Task) : bool :=
  (1 <=? priority t) && (priority t <=? 5).

(** [response_model=TaskRead] and [response_model=List[TaskRead]]: what
    the function returns is validated before it is sent, and a value that
    does not pass is refused (the client gets a 500); this comes after
    whatever the function has committed. *)
Definition response_model_TaskRead (t : Task) : endpoint Task :=
  fun s =>
    if validates_as_TaskRead t then Replied t s
    else Failed ResponseValidationError s.



Definition read_task (task_id : Z) : endpoint Task :=
  task <~ call (session_get task_id) ;;
  match task with
  | None => raise not_found
  | Some task => reply task
  end.

(** [read_task] as it is registered, with [response_model=TaskRead]:
    the task found is validated before it is sent. *)
Definition read_task_endpoint (task_id : Z) : endpoint Task :=
  task <~ read_task task_id ;;
  response_model_TaskRead task.

(** [setattr(db_task, key, value)] for a key of the dump: a field the
    request did not set keeps the attribute, a field it set gives its value,
    [None] for null. *)
Definition setattr_from {A : Type} (field : option (option A))
  (current : option A) : option A :=
  match field with
  | None => current
  | Some value => value
  end.

(** [update_task], the function itself: [clock] is the reading
    [datetime.utcnow()] takes.  The commit fails on a NOT NULL column left
    at [None].  An int that the priority column cannot hold is a failure of
    the store that is not modelled; see [TaskUpdate.storable].  The check
    of what the function returns against [response_model=TaskRead] is in
    [update_task_endpoint] below. *)
Definition update_task (task_id : Z) (task : TaskUpdate.t) (clock : Z)
  : endpoint Task :=
  db_task <~ call (session_get task_id) ;;
  match db_task with
  | None => raise not_found
  | Some db_task =>
      let title' :=
        setattr_from (TaskUpdate.title task) (Some (title db_task)) in
      let description' :=
        setattr_from (TaskUpdate.description task) (description db_task) in
      let status' :=
        setattr_from (TaskUpdate.status task) (Some (status db_task)) in
      let due_date' :=
        setattr_from (TaskUpdate.due_date task) (due_date db_task) in
      let priority' :=
        setattr_from (TaskUpdate.priority task) (Some (priority db_task)) in
      let updated_at' := naive clock in
      match title', status', priority' with
      | Some title', Some status', Some priority' =>
          let db_task :=
            {| id := id db_task; title := title';
               description := description'; status := status';
               due_date := due_date'; priority := priority';
               created_at := created_at db_task;
               updated_at := updated_at' |} in
          _ <~ call (session_add (as_row db_task)) ;;
          _ <~ call session_commit ;;
          db_task <~ session_refresh db_task ;;
          reply db_task
      | _, _, _ => raise IntegrityError
      end
  end.

(** [update_task] as it is registered, with [response_model=TaskRead]:
    the task the function returns, already committed, is validated before
    it is sent. *)
Definition update_task_endpoint (task_id : Z) (task : TaskUpdate.t)
  (clock : Z) : endpoint Task :=
  db_task <~ update_task task_id task clock ;;
  response_model_TaskRead db_task.

(** The priority of the task [t] once the request [u] is applied. *)
Definition priority_after (u : TaskUpdate.t) (t : Task) : Z :=
  match TaskUpdate.priority u with
  | Some (Some p) => p
  | _ => priority t
  end.

(** [delete_task]; the reply [{"ok": True}] is [true]. *)
Definition delete_task (task_id : Z) : endpoint bool :=
  task <~ call (session_get task_id) ;;
  match task with
  | None => raise not_found
  | Some task =>
      _ <~ call (session_delete task) ;;
      _ <~ call session_commit ;;
      reply true
  end.

(** A request body and a session for the examples. *)
Definition sample_create : TaskCreate.t :=
  TaskCreate.mk "Test Task" (Some "A test task") "todo" None 3.

Definition sample_update : TaskUpdate.t :=
  TaskUpdate.mk (Some (Some "New Title")) None (Some (Some "completed"))
    None (Some (Some 9)).

Definition sample_update_in_range : TaskUpdate.t :=
  TaskUpdate.mk (Some (Some "New Title")) None (Some (Some "completed"))
    None (Some (Some 4)).

(** The row [update_task] leaves for the task [t] when the request [u]
    sets no required column to null. *)
Definition updated_row (t : Task) (u : TaskUpdate.t) (clock : Z) : Task :=
  {| id := id t;
     title := match TaskUpdate.title u with
              | Some (Some v) => v
              | _ => title t
              end;
     description := match TaskUpdate.description u with
                    | Some v => v
                    | None => description t
                    end;
     status := match TaskUpdate.status u with
               | Some (Some v) => v
               | _ => status t
               end;
     due_date := option_map stored
                   match TaskUpdate.due_date u with
                   | Some v => v
                   | None => due_date t
                   end;
     priority := match TaskUpdate.priority u with
                 | Some (Some v) => v
                 | _ => priority t
                 end;
     created_at := stored (created_at t);
     updated_at := naive clock |}.

(** The completed task of the sample that was updated ten days ago. *)
Definition old_task : Task :=
  sample_task 3 "Old" None "completed" None
    (naive (clock0 - timedelta_days 10)).

(** The row [create_task] inserts. *)
Definition created_row (task : TaskCreate.t) (new_id created updated : Z)
  : Task :=
  {| id := new_id;
     title := TaskCreate.title task;
     description := TaskCreate.description task;
     status := TaskCreate.status task;
     due_date := option_map stored (TaskCreate.due_date task);
     priority := TaskCreate.priority task;
     created_at := naive created;
     updated_at := naive updated |}.
(** ** The monad and the loop *)

Lemma with_table_same (s : Session) : with_table s (table s) = s.
Proof. destruct s; reflexivity. Qed.

(** A loop whose body returns [f acc x] and rewrites the table by [g x]
    folds [f] over the list and [g] over the table. *)
Lemma for_each_fold {A B : Type} (body : B -> A -> M B)
  (f : B -> A -> B) (g : A -> list Task -> list Task) :
  (forall acc x s,
      body acc x s = Returned (f acc x) (with_table s (g x (table s)))) ->
  forall xs acc s,
    for_each xs acc body s =
    Returned (fold_left f xs acc)
             (with_table s (fold_left (fun rows x => g x rows) xs (table s))).
Proof.
  intros Hbody xs.
  induction xs as [|x xs IH]; intros acc s; simpl.
  - unfold ret. now rewrite with_table_same.
  - unfold mbind. rewrite Hbody, IH. reflexivity.
Qed.

(** The same for a loop that only reads. *)
Lemma for_each_pure {A B : Type} (body : B -> A -> M B) (f : B -> A -> B) :
  (forall acc x s, body acc x s = Returned (f acc x) s) ->
  forall xs acc s,
    for_each xs acc body s = Returned (fold_left f xs acc) s.
Proof.
  intros Hbody xs.
  induction xs as [|x xs IH]; intros acc s; simpl.
  - reflexivity.
  - unfold mbind. rewrite Hbody. apply IH.
Qed.

(** Counting with an accumulator. *)
Lemma fold_left_count {A : Type} (p : A -> bool) (xs : list A) (acc : Z) :
  fold_left (fun n x => if p x then n + 1 else n) xs acc =
  acc + Z.of_nat (List.length (filter p xs)).
Proof.
  revert acc.
  induction xs as [|x xs IH]; intros acc; simpl.
  - lia.
  - rewrite IH. destruct (p x); simpl List.length; lia.
Qed.

(** ** Writes by primary key *)

Section WritesByKey.

Variable w : Task -> option Task.

Lemma write_row_some (r x x' : Task) :
  w x = Some x' -> write_row w r x = if id r =? id x then x' else r.
Proof. intros H. unfold write_row. now rewrite H. Qed.

Lemma write_row_none (r x : Task) :
  w x = None -> write_row w r x = r.
Proof. intros H. unfold write_row. now rewrite H. Qed.

Lemma write_row_other (r x : Task) :
  id x <> id r -> write_row w r x = r.
Proof.
  intros Hne. unfold write_row.
  destruct (w x); [|reflexivity].
  destruct (id r =? id x) eqn:E; [|reflexivity].
  apply Z.eqb_eq in E. congruence.
Qed.

Lemma fold_left_writes (xs rows : list Task) :
  fold_left
    (fun rows x =>
       match w x with
       | Some x' => map (fun r => if id r =? id x then x' else r) rows
       | None => rows
       end) xs rows =
  map (fun r => fold_left (write_row w) xs r) rows.
Proof.
  revert rows.
  induction xs as [|x xs IH]; intros rows; cbn [fold_left].
  - symmetry. apply map_id.
  - rewrite IH.
    destruct (w x) as [x'|] eqn:Hw.
    + rewrite map_map. apply map_ext. intros r.
      now rewrite (write_row_some r x x' Hw).
    + apply map_ext. intros r. now rewrite (write_row_none r x Hw).
Qed.

Lemma fold_left_write_row_other (xs : list Task) (r : Task) :
  (forall x, In x xs -> id x <> id r) ->
  fold_left (write_row w) xs r = r.
Proof.
  induction xs as [|x xs IH]; intros Hne; cbn [fold_left]; [reflexivity|].
  rewrite write_row_other by (apply Hne; now left).
  apply IH. intros y Hy. apply Hne. now right.
Qed.

(** With distinct keys, the row of a loaded task takes the state written
    for it and every other row stays. *)
Lemma fold_left_write_row (xs : list Task) (r : Task) :
  NoDup (map id xs) ->
  (forall x, In x xs -> id x = id r -> x = r) ->
  (forall x x', w x = Some x' -> id x' = id x) ->
  fold_left (write_row w) xs r =
  if existsb (fun x => id x =? id r) xs
  then match w r with Some r' => r' | None => r end
  else r.
Proof.
  intros Hnd Hsame Hid.
  induction xs as [|x xs IH]; cbn [fold_left existsb]; [reflexivity|].
  inversion Hnd as [|? ? Hnotin Hnd']; subst.
  destruct (id x =? id r) eqn:E; cbn [orb].
  - apply Z.eqb_eq in E.
    assert (x = r) as -> by (apply Hsame; [now left | assumption]).
    destruct (w r) as [r'|] eqn:Hw.
    + rewrite (write_row_some r r r' Hw), Z.eqb_refl.
      apply fold_left_write_row_other.
      intros y Hy Heq. apply Hnotin.
      rewrite (Hid _ _ Hw) in Heq. rewrite <- Heq. now apply in_map.
    + rewrite (write_row_none r r Hw).
      apply fold_left_write_row_other.
      intros y Hy Heq. apply Hnotin. rewrite <- Heq. now apply in_map.
  - rewrite write_row_other by (now apply Z.eqb_neq).
    apply IH; [assumption|].
    intros y Hy. apply Hsame. now right.
Qed.

End WritesByKey.

Lemma NoDup_map_filter {A B : Type} (f : A -> B) (p : A -> bool)
  (xs : list A) :
  NoDup (map f xs) -> NoDup (map f (filter p xs)).
Proof.
  induction xs as [|x xs IH]; simpl; intros Hnd; [constructor|].
  inversion Hnd as [|? ? Hnotin Hnd']; subst.
  destruct (p x); simpl; [|now apply IH].
  constructor; [|now apply IH].
  intros Hin. apply Hnotin.
  apply in_map_iff in Hin as (y & Hy & Hin).
  apply filter_In in Hin as [Hin _].
  rewrite <- Hy. now apply in_map.
Qed.

(** A key names one row. *)
Lemma pk_unique_same (rows : list Task) (x r : Task) :
  pk_unique rows -> In x rows -> In r rows -> id x = id r -> x = r.
Proof.
  unfold pk_unique.
  induction rows as [|y rows IH]; simpl; intros Hnd Hx Hr E; [contradiction|].
  inversion Hnd as [|? ? Hnotin Hnd']; subst.
  destruct Hx as [->|Hx], Hr as [->|Hr].
  - reflexivity.
  - exfalso. apply Hnotin. rewrite E. now apply in_map.
  - exfalso. apply Hnotin. rewrite <- E. now apply in_map.
  - now apply IH.
Qed.

Lemma existsb_key_filter (p : Task -> bool) (rows : list Task) (r : Task) :
  pk_unique rows -> In r rows ->
  existsb (fun x => id x =? id r) (filter p rows) = p r.
Proof.
  intros Hpk Hr.
  destruct (p r) eqn:Hp.
  - apply existsb_exists. exists r. split.
    + apply filter_In. now split.
    + apply Z.eqb_refl.
  - apply not_true_is_false. intros H.
    apply existsb_exists in H as (x & Hx & E).
    apply filter_In in Hx as [Hx Hpx]. apply Z.eqb_eq in E.
    rewrite (pk_unique_same rows x r Hpk Hx Hr E) in Hpx. congruence.
Qed.

(** ** Queries *)

Lemma order_by_nil (d : Dialect) (rows : list Task) : order_by d [] rows = rows.
Proof.
  induction rows as [|x rows IH]; simpl; [reflexivity|].
  rewrite IH. destruct rows; reflexivity.
Qed.

Lemma session_exec_where (cond : Dialect -> Task -> sql_bool) (s : Session) :
  session_exec (where_ select_Task cond) s =
  Returned (filter (fun t => sql_true (cond (bind s) t)) (table s)) s.
Proof.
  unfold session_exec. cbn [order_by_clause where_ select_Task where_clause].
  rewrite order_by_nil. f_equal.
  apply filter_ext. intros t.
  now destruct (cond (bind s) t) as [[|]|].
Qed.

(** ** Prioritization *)

Lemma set_priority_same (t : Task) : set_priority t (priority t) = t.
Proof. destruct t; reflexivity. Qed.

(** The normalisation of the time zone is what lets the subtraction go
    through. *)
Lemma dt_sub_normalised (d : datetime) (clock : Z) :
  dt_sub (if is_none (tzinfo d) then replace_tzinfo d utc else d)
         (datetime_now_utc clock) = inr (time_left clock d).
Proof. destruct d as [ts [tz|]]; reflexivity. Qed.

Lemma prioritize_task_eq (clock acc : Z) (task : Task) (s : Session) :
  prioritize_task (datetime_now_utc clock) acc task s =
  Returned (if priority_moves clock task then acc + 1 else acc)
    (with_table s
       (match prioritize_write clock task with
        | Some x' => map (fun r => if id r =? id task then x' else r) (table s)
        | None => table s
        end)).
Proof.
  unfold prioritize_task, prioritize_write, priority_moves, band_priority.
  destruct (due_date task) as [d|].
  - unfold mbind. rewrite dt_sub_normalised. cbn [lift].
    destruct (negb _); [reflexivity|].
    unfold ret. now rewrite with_table_same.
  - rewrite Z.eqb_refl. cbn [negb]. unfold ret. now rewrite with_table_same.
Qed.

Lemma reprioritize_write (clock : Z) (r : Task) :
  (if not_completed r
   then match prioritize_write clock r with Some r' => r' | None => r end
   else r) = reprioritize clock r.
Proof.
  unfold reprioritize, not_completed, prioritize_write, priority_moves.
  destruct (String.eqb (status r) "completed"); cbn [negb]; [reflexivity|].
  destruct (band_priority clock r =? priority r) eqn:E; cbn [negb];
    [|reflexivity].
  apply Z.eqb_eq in E. rewrite E. symmetry. apply set_priority_same.
Qed.

(** The pass as a whole: it returns, every row goes through
    [reprioritize], and the count is that of the loaded tasks whose
    priority moves. *)
Lemma auto_prioritize_tasks_eq (clock : Z) (s : Session) :
  pk_unique (table s) ->
  auto_prioritize_tasks clock s =
  Returned
    (Z.of_nat (List.length (filter (priority_moves clock)
                              (filter not_completed (table s)))))
    (with_table s (map (reprioritize clock) (table s))).
Proof.
  intros Hpk.
  unfold auto_prioritize_tasks, mbind.
  rewrite session_exec_where.
  rewrite (filter_ext _ not_completed)
    by (intros t; unfold not_completed, col_ne, sql_true;
        now destruct (String.eqb (status t) "completed")).
  rewrite (for_each_fold _
             (fun n x => if priority_moves clock x then n + 1 else n)
             (fun x rows =>
                match prioritize_write clock x with
                | Some x' => map (fun r => if id r =? id x then x' else r) rows
                | None => rows
                end))
    by (intros; apply prioritize_task_eq).
  unfold session_commit, ret.
  rewrite fold_left_count, fold_left_writes. f_equal.
  f_equal. apply map_ext_in. intros r Hr.
  rewrite fold_left_write_row.
  - rewrite existsb_key_filter by assumption. apply reprioritize_write.
  - now apply NoDup_map_filter.
  - intros x Hx. apply filter_In in Hx as [Hx _].
    now apply pk_unique_same with (rows := table s).
  - intros x x'. unfold prioritize_write.
    destruct (priority_moves clock x); [|discriminate].
    intros [= <-]. reflexivity.
Qed.

Lemma reprioritize_prioritized (clock : Z) (t : Task) :
  prioritized clock t (reprioritize clock t).
Proof.
  unfold prioritized, reprioritize.
  destruct (String.eqb_spec (status t) "completed") as [E|E].
  - split; [now rewrite set_priority_same|].
    split; [reflexivity|]. intros Hne. contradiction.
  - split; [reflexivity|].
    split; [intros Hc; contradiction|]. intros _.
    cbn [priority set_priority].
    unfold band_priority, total_seconds_lt, hours, timedelta_days,
      usec_per_day, usec_per_second.
    destruct (due_date t) as [d|]; [|reflexivity].
    repeat match goal with
           | |- context [?a <? ?b] => destruct (Z.ltb_spec a b)
           end;
      repeat split; intros; try reflexivity; lia.
Qed.

Lemma Forall2_map_r {A B : Type} (R : A -> B -> Prop) (f : A -> B)
  (xs : list A) :
  (forall x, R x (f x)) -> Forall2 R xs (map f xs).
Proof.
  intros H. induction xs as [|x xs IH]; simpl; constructor; auto.
Qed.

Lemma reprioritize_changed (clock : Z) (rows : list Task) :
  List.length (filter (priority_moves clock) (filter not_completed rows)) =
  List.length (filter priority_changed
                 (combine rows (map (reprioritize clock) rows))).
Proof.
  induction rows as [|t rows IH]; [reflexivity|].
  cbn [filter map combine].
  assert (priority_changed (t, reprioritize clock t) =
          not_completed t && priority_moves clock t) as ->.
  { unfold priority_changed, reprioritize, not_completed, priority_moves.
    cbn [fst snd].
    destruct (String.eqb (status t) "completed"); cbn [negb andb].
    - now rewrite Z.eqb_refl.
    - cbn [priority set_priority]. now rewrite Z.eqb_sym. }
  destruct (not_completed t); cbn [andb filter]; [|exact IH].
  destruct (priority_moves clock t); cbn [List.length]; now rewrite IH.
Qed.

(** C1.  The prioritization pass reads the clock once and returns.  Every
    task that is not completed and is due in less than 24 hours (overdue
    tasks included) gets priority 5, one due in at least 24 hours and less
    than 3 days gets 4, one due in at least 3 days and less than 7 days
    gets 3, and one due in 7 days or more, or with no due date, keeps its
    priority; nothing else of a task moves.  The value returned is the
    number of tasks whose priority changed. *)
Theorem prioritize_bands (clock : Z) (s : Session) :
  pk_unique (table s) ->
  exists n s',
    auto_prioritize_tasks clock s = Returned n s' /\
    bind s' = bind s /\
    Forall2 (prioritized clock) (table s) (table s') /\
    n = Z.of_nat (List.length (filter priority_changed
                                 (combine (table s) (table s')))).
Proof.
  intros Hpk.
  eexists. eexists.
  split; [now apply auto_prioritize_tasks_eq|].
  cbn [bind table with_table].
  split; [reflexivity|].
  split.
  - apply Forall2_map_r. apply reprioritize_prioritized.
  - now rewrite reprioritize_changed.
Qed.

Ltac solve_pk_unique :=
  unfold pk_unique; cbn; repeat constructor; cbn; intuition discriminate.

Lemma prioritize_bands_witness :
  pk_unique (table sample_session) /\
  exists n s',
    auto_prioritize_tasks clock0 sample_session = Returned n s' /\
    bind s' = bind sample_session /\
    Forall2 (prioritized clock0) (table sample_session) (table s') /\
    n = Z.of_nat (List.length (filter priority_changed
                                 (combine (table sample_session) (table s')))).
Proof.
  split; [solve_pk_unique|].
  apply (prioritize_bands clock0 sample_session). solve_pk_unique.
Defined.

Lemma band_priority_set (clock : Z) (t : Task) (p : Z) :
  band_priority clock (set_priority t p) =
  match due_date t with
  | None => p
  | Some d =>
      if total_seconds_lt (time_left clock d) 86400 then 5
      else if total_seconds_lt (time_left clock d) 259200 then 4
      else if total_seconds_lt (time_left clock d) 604800 then 3
      else p
  end.
Proof. reflexivity. Qed.

(** Once through the pass, a task is at the priority of its band. *)
Lemma band_priority_reprioritize (clock : Z) (t : Task) :
  not_completed t = true ->
  band_priority clock (reprioritize clock t) =
  priority (reprioritize clock t).
Proof.
  unfold not_completed, reprioritize. intros Hnc.
  destruct (String.eqb (status t) "completed"); [discriminate|].
  rewrite band_priority_set. cbn [priority set_priority].
  unfold band_priority.
  destruct (due_date t) as [d|]; [|reflexivity].
  repeat match goal with
         | |- context [if ?b then _ else _] => destruct b
         end; reflexivity.
Qed.

Lemma not_completed_reprioritize (clock : Z) (t : Task) :
  not_completed (reprioritize clock t) = not_completed t.
Proof.
  unfold not_completed, reprioritize.
  now destruct (String.eqb (status t) "completed") eqn:E; cbn; rewrite E.
Qed.

Lemma reprioritize_idem (clock : Z) (t : Task) :
  reprioritize clock (reprioritize clock t) = reprioritize clock t.
Proof.
  destruct (not_completed t) eqn:Hnc.
  - pose proof (band_priority_reprioritize clock t Hnc) as Hb.
    pose proof (not_completed_reprioritize clock t) as Hs.
    rewrite Hnc in Hs. unfold not_completed in Hs.
    unfold reprioritize at 1.
    destruct (String.eqb (status (reprioritize clock t)) "completed");
      [reflexivity|].
    rewrite Hb. apply set_priority_same.
  - unfold not_completed in Hnc. unfold reprioritize.
    destruct (String.eqb (status t) "completed") eqn:E; [|discriminate].
    now rewrite E.
Qed.

Lemma reprioritize_id (clock : Z) (t : Task) :
  id (reprioritize clock t) = id t.
Proof.
  unfold reprioritize. now destruct (String.eqb (status t) "completed").
Qed.

Lemma pk_unique_reprioritize (clock : Z) (rows : list Task) :
  pk_unique rows -> pk_unique (map (reprioritize clock) rows).
Proof.
  unfold pk_unique. rewrite map_map.
  now rewrite (map_ext _ id (reprioritize_id clock)).
Qed.

Lemma nothing_moves_after (clock : Z) (rows : list Task) :
  filter (priority_moves clock)
    (filter not_completed (map (reprioritize clock) rows)) = [].
Proof.
  induction rows as [|t rows IH]; [reflexivity|].
  cbn [map filter]. rewrite not_completed_reprioritize.
  destruct (not_completed t) eqn:Hnc; [|exact IH].
  cbn [filter]. unfold priority_moves at 1.
  rewrite (band_priority_reprioritize clock t Hnc), Z.eqb_refl.
  exact IH.
Qed.

(** C7.  Prioritization is idempotent: the pass returns, and a second pass
    run on its result with the same reading of the clock returns 0 and
    leaves the session, hence every task, as it found it. *)
Theorem prioritize_idempotent (clock : Z) (s : Session) :
  pk_unique (table s) ->
  exists n s',
    auto_prioritize_tasks clock s = Returned n s' /\
    auto_prioritize_tasks clock s' = Returned 0 s'.
Proof.
  intros Hpk.
  eexists. eexists.
  split; [now apply auto_prioritize_tasks_eq|].
  rewrite auto_prioritize_tasks_eq
    by (cbn [table with_table]; now apply pk_unique_reprioritize).
  cbn [table with_table]. rewrite nothing_moves_after.
  rewrite map_map, (map_ext _ _ (reprioritize_idem clock)).
  reflexivity.
Qed.

Lemma prioritize_idempotent_witness :
  pk_unique (table sample_session) /\
  exists n s',
    auto_prioritize_tasks clock0 sample_session = Returned n s' /\
    auto_prioritize_tasks clock0 s' = Returned 0 s'.
Proof.
  split; [solve_pk_unique|].
  apply (prioritize_idempotent clock0 sample_session). solve_pk_unique.
Defined.

(** C5, on the code.  A task due in an hour, last updated two days ago: the
    pass moves its priority from 1 to 5 and counts one update, and the row
    it writes still carries the [updated_at] of two days ago, not the
    reading of the clock. *)
Theorem prioritize_leaves_updated_at :
  exists t',
    auto_prioritize_tasks clock0 untouched_session =
      Returned 1 (with_table untouched_session [t']) /\
    priority t' = 5 /\
    updated_at t' = naive (clock0 - timedelta_days 2) /\
    timestamp (updated_at t') <> clock0.
Proof.
  eexists. split; [vm_compute; reflexivity|].
  cbn [priority updated_at]. repeat split. vm_compute. discriminate.
Qed.

(** ** Cleanup *)

Lemma filter_filter_andb {A : Type} (f g : A -> bool) (xs : list A) :
  filter f (filter g xs) = filter (fun x => g x && f x) xs.
Proof.
  induction xs as [|x xs IH]; simpl; [reflexivity|].
  destruct (g x); simpl; [destruct (f x)|]; now rewrite IH.
Qed.

(** Deleting the rows of the keys of the doomed tasks of [xs] one after
    the other keeps the rows whose key is that of no doomed task. *)
Lemma fold_left_deletes (doomed : Task -> bool) (xs rows : list Task) :
  fold_left
    (fun rows x =>
       if doomed x then filter (fun r => negb (id r =? id x)) rows else rows)
    xs rows =
  filter (fun r => negb (existsb (fun x => doomed x && (id r =? id x)) xs))
    rows.
Proof.
  revert rows.
  induction xs as [|x xs IH]; intros rows; cbn [fold_left existsb].
  - cbn [negb]. induction rows as [|r rows IHr]; simpl; congruence.
  - rewrite IH. destruct (doomed x); cbn [andb orb]; [|reflexivity].
    rewrite filter_filter_andb. apply filter_ext. intros r.
    now rewrite negb_orb.
Qed.

Lemma existsb_doomed_key (doomed : Task -> bool) (rows : list Task)
  (r : Task) :
  pk_unique rows -> In r rows ->
  existsb (fun x => doomed x && (id r =? id x)) (filter completed rows) =
  completed r && doomed r.
Proof.
  intros Hpk Hr.
  destruct (completed r && doomed r) eqn:E.
  - apply andb_prop in E as [Ec Ed].
    apply existsb_exists. exists r. split.
    + apply filter_In. now split.
    + now rewrite Ed, Z.eqb_refl.
  - apply not_true_is_false. intros H.
    apply existsb_exists in H as (x & Hx & Hd).
    apply filter_In in Hx as [Hx Hc].
    apply andb_prop in Hd as [Hd Hid]. apply Z.eqb_eq in Hid.
    rewrite (pk_unique_same rows x r Hpk Hx Hr (eq_sym Hid)) in Hc, Hd.
    rewrite Hc, Hd in E. discriminate.
Qed.

Lemma archive_task_eq (clock days_old acc : Z) (task : Task) (s : Session) :
  archive_task (datetime_now_utc clock) days_old acc task s =
  Returned (if stale clock days_old task then acc + 1 else acc)
    (with_table s
       (if stale clock days_old task
        then filter (fun r => negb (id r =? id task)) (table s)
        else table s)).
Proof.
  unfold archive_task, stale, mbind.
  assert (dt_sub (datetime_now_utc clock)
            (if is_none (tzinfo (updated_at task))
             then replace_tzinfo (updated_at task) utc
             else updated_at task) =
          inr (clock - timestamp (updated_at task))) as ->
      by (destruct (updated_at task) as [ts [tz|]]; reflexivity).
  cbn [lift].
  destruct (days_old <=? _); [reflexivity|].
  unfold ret. now rewrite with_table_same.
Qed.

(** Whole days: [days_old <= td.days] says that [td] is at least
    [days_old] days. *)
Lemma days_le (days_old : Z) (td : timedelta) :
  (days_old <=? days td) = (timedelta_days days_old <=? td).
Proof.
  unfold days, timedelta_days.
  assert (0 < usec_per_day) as Hpos by reflexivity.
  pose proof (Z.div_mod td usec_per_day) as Hdm.
  pose proof (Z.mod_pos_bound td usec_per_day Hpos) as Hb.
  destruct (Z.leb_spec days_old (td / usec_per_day));
    destruct (Z.leb_spec (days_old * usec_per_day) td);
    try reflexivity; nia.
Qed.

Lemma archive_completed_tasks_eq (clock days_old : Z) (s : Session) :
  pk_unique (table s) ->
  archive_completed_tasks clock days_old s =
  Returned
    (Z.of_nat (List.length (filter (expired clock days_old) (table s))))
    (with_table s
       (filter (fun t => negb (expired clock days_old t)) (table s))).
Proof.
  intros Hpk.
  unfold archive_completed_tasks, mbind.
  rewrite session_exec_where.
  rewrite (filter_ext _ completed)
    by (intros t; unfold completed, col_eq, sql_true;
        now destruct (String.eqb (status t) "completed")).
  rewrite (for_each_fold _
             (fun n x => if stale clock days_old x then n + 1 else n)
             (fun x rows =>
                if stale clock days_old x
                then filter (fun r => negb (id r =? id x)) rows
                else rows))
    by (intros; apply archive_task_eq).
  unfold session_commit, ret.
  rewrite fold_left_count, fold_left_deletes, filter_filter_andb.
  f_equal.
  - rewrite Z.add_0_l. do 2 f_equal. apply filter_ext. intros t.
    unfold expired, completed, stale. now rewrite days_le.
  - f_equal. apply filter_ext_in. intros r Hr.
    rewrite existsb_doomed_key by assumption.
    unfold expired, completed, stale. now rewrite days_le.
Qed.

Lemma expired_iff (clock days_old : Z) (t : Task) :
  expired clock days_old t = true <->
  status t = "completed" /\
  timedelta_days days_old <= clock - timestamp (updated_at t).
Proof.
  unfold expired. rewrite andb_true_iff, String.eqb_eq, Z.leb_le. tauto.
Qed.

(** C2, as the code has it.  For every [days_old] the cleanup returns; it
    deletes exactly the completed tasks whose [updated_at], naive or not, is
    at least [days_old] days before now (the boundary included), keeps every
    other task, and returns the number of tasks deleted.  With
    [days_old = 0] it deletes all and only the completed tasks whose
    [updated_at] is not after now; these are all the completed tasks when
    no [updated_at] lies ahead of the clock. *)
Theorem cleanup_deletes_expired (clock days_old : Z) (s : Session) :
  pk_unique (table s) ->
  exists n s',
    archive_completed_tasks clock days_old s = Returned n s' /\
    bind s' = bind s /\
    table s' = filter (fun t => negb (expired clock days_old t)) (table s) /\
    n = Z.of_nat (List.length (filter (expired clock days_old) (table s))) /\
    (forall t,
        In t (table s') <->
        In t (table s) /\
        ~ (status t = "completed" /\
           timedelta_days days_old <= clock - timestamp (updated_at t))) /\
    (days_old = 0 ->
     forall t,
       In t (table s') <->
       In t (table s) /\
       ~ (status t = "completed" /\ timestamp (updated_at t) <= clock)) /\
    (days_old = 0 ->
     (forall t, In t (table s) -> timestamp (updated_at t) <= clock) ->
     forall t,
       In t (table s') <-> In t (table s) /\ status t <> "completed").
Proof.
  intros Hpk.
  eexists. eexists.
  split; [now apply archive_completed_tasks_eq|].
  cbn [bind table with_table].
  assert (forall t,
             In t (filter (fun t => negb (expired clock days_old t))
                     (table s)) <->
             In t (table s) /\
             ~ (status t = "completed" /\
                timedelta_days days_old <=
                clock - timestamp (updated_at t))) as Hin.
  { intros t. rewrite filter_In, negb_true_iff, <- expired_iff.
    now rewrite not_true_iff_false. }
  split; [reflexivity|]. split; [reflexivity|]. split; [reflexivity|].
  split; [exact Hin|].
  split.
  - intros -> t. rewrite Hin. unfold timedelta_days.
    split; intros [Ht Hn]; (split; [exact Ht|]);
      intros [Hc Hu]; apply Hn; (split; [exact Hc|lia]).
  - intros -> Hpast t. rewrite Hin. unfold timedelta_days.
    split; intros [Ht Hn]; (split; [exact Ht|]).
    + intros Hc. apply Hn. split; [exact Hc|].
      specialize (Hpast t Ht). lia.
    + intros [Hc _]. now apply Hn.
Qed.

Lemma cleanup_deletes_expired_witness :
  pk_unique (table sample_session) /\
  exists n s',
    archive_completed_tasks clock0 0 sample_session = Returned n s' /\
    bind s' = bind sample_session /\
    table s' = filter (fun t => negb (expired clock0 0 t))
                 (table sample_session) /\
    n = Z.of_nat (List.length (filter (expired clock0 0)
                                 (table sample_session))) /\
    (forall t,
        In t (table s') <->
        In t (table sample_session) /\
        ~ (status t = "completed" /\
           timedelta_days 0 <= clock0 - timestamp (updated_at t))) /\
    (0 = 0 ->
     forall t,
       In t (table s') <->
       In t (table sample_session) /\
       ~ (status t = "completed" /\ timestamp (updated_at t) <= clock0)) /\
    (0 = 0 ->
     (forall t, In t (table sample_session) ->
                timestamp (updated_at t) <= clock0) ->
     forall t,
       In t (table s') <->
       In t (table sample_session) /\ status t <> "completed").
Proof.
  split; [solve_pk_unique|].
  apply (cleanup_deletes_expired clock0 0 sample_session). solve_pk_unique.
Defined.

(** C2 as stated fails: on a table with one completed task whose
    [updated_at] is a microsecond ahead of the clock, the cleanup with
    [days_old = 0] deletes nothing and returns 0. *)
Lemma cleanup_zero_keeps_future_task :
  archive_completed_tasks clock0 0 future_session =
    Returned 0 future_session /\
  In future_task (table future_session) /\
  status future_task = "completed".
Proof.
  split; [vm_compute; reflexivity|].
  split; [now left | reflexivity].
Qed.

(** The test of the repository: of two completed tasks, updated ten days
    and one day ago, the cleanup at seven days deletes the first. *)
Example cleanup_sample :
  exists s',
    archive_completed_tasks clock0 7 sample_session = Returned 1 s' /\
    map title (table s') = ["Due soon"; "Due later"; "New"; "Urgent"].
Proof. eexists. split; vm_compute; reflexivity. Qed.

Example prioritize_sample :
  exists s',
    auto_prioritize_tasks clock0 sample_session = Returned 3 s' /\
    map priority (table s') = [5; 3; 1; 1; 5].
Proof. eexists. split; vm_compute; reflexivity. Qed.

(** ** LIKE *)

Section Like.

Variable cs : bool.

Lemma like_percent_cons (r s : string) :
  like cs (String percent r) s =
  like cs r s ||
  match s with
  | EmptyString => false
  | String _ s' => like cs (String percent r) s'
  end.
Proof. destruct s; reflexivity. Qed.

Lemma like_cons (p : ascii) (r s : string) :
  Ascii.eqb p percent = false ->
  like cs (String p r) s =
  match s with
  | EmptyString => false
  | String c s' =>
      (Ascii.eqb p underscore || like_char_eq cs p c) && like cs r s'
  end.
Proof. intros H. cbn [like]. now rewrite H. Qed.

(** A lone [%] matches every text. *)
Lemma like_percent (s : string) :
  like cs (String percent EmptyString) s = true.
Proof.
  induction s as [|c s IH]; rewrite like_percent_cons; [reflexivity|].
  rewrite IH. apply orb_true_r.
Qed.

(** A query with no wildcard, followed by [%], matches the texts that
    start with it. *)
Lemma like_literal_percent (q s : string) :
  no_wildcard q = true ->
  like cs (q ++ String percent EmptyString) s = starts_with cs q s.
Proof.
  revert s.
  induction q as [|c q IH]; intros s Hq.
  - apply like_percent.
  - cbn [no_wildcard] in Hq. apply andb_prop in Hq as [Hc Hq].
    unfold is_wildcard in Hc. apply negb_true_iff, orb_false_elim in Hc
      as [Hp Hu].
    cbn [append starts_with]. rewrite like_cons by exact Hp.
    destruct s as [|d s]; [reflexivity|].
    rewrite Hu, IH by exact Hq. reflexivity.
Qed.

(** Between two [%], it matches the texts it occurs in. *)
Lemma like_contains (q s : string) :
  no_wildcard q = true ->
  like cs (contains_pattern q) s = occurs cs q s.
Proof.
  intros Hq. unfold contains_pattern.
  induction s as [|d s IH]; rewrite like_percent_cons;
    rewrite like_literal_percent by exact Hq; cbn [occurs];
    [reflexivity|].
  now rewrite IH.
Qed.

Lemma like_char_eq_fold (a b : ascii) :
  like_char_eq cs a b = Ascii.eqb (fold_char cs a) (fold_char cs b).
Proof. destruct cs; reflexivity. Qed.

Lemma fold_case_app (a b : string) :
  fold_case cs (a ++ b) = (fold_case cs a ++ fold_case cs b)%string.
Proof. induction a as [|c a IH]; cbn; [reflexivity|]. now rewrite IH. Qed.

Lemma starts_with_iff (q s : string) :
  starts_with cs q s = true <->
  exists post, fold_case cs s = (fold_case cs q ++ post)%string.
Proof.
  revert s.
  induction q as [|c q IH]; intros s; cbn [starts_with fold_case append].
  - split; [intros _; now exists (fold_case cs s) | reflexivity].
  - destruct s as [|d s]; cbn [fold_case].
    + split; [discriminate | intros [post H]; discriminate].
    + rewrite andb_true_iff, like_char_eq_fold, Ascii.eqb_eq, IH.
      split.
      * intros [-> [post ->]]. now exists post.
      * intros [post [= -> ->]]. split; [reflexivity | now exists post].
Qed.

Lemma occurs_iff (q s : string) :
  occurs cs q s = true <->
  substring_of (fold_case cs q) (fold_case cs s).
Proof.
  unfold substring_of.
  induction s as [|d s IH]; cbn [occurs]; rewrite orb_true_iff.
  - split.
    + intros [H|H]; [|discriminate].
      apply starts_with_iff in H as [post H]. now exists EmptyString, post.
    + intros (pre & post & H). left. apply starts_with_iff.
      destruct pre; [now exists post | discriminate].
  - split.
    + intros [H|H].
      * apply starts_with_iff in H as [post H]. now exists EmptyString, post.
      * apply IH in H as (pre & post & H).
        exists (String (fold_char cs d) pre), post.
        cbn [fold_case append]. now rewrite H.
    + intros (pre & post & H).
      destruct pre as [|a pre].
      * left. apply starts_with_iff. now exists post.
      * right. apply IH. cbn [fold_case append] in H.
        injection H as _ H. now exists pre, post.
Qed.

End Like.

Lemma fold_case_exact (s : string) : fold_case true s = s.
Proof. induction s as [|c s IH]; cbn; [reflexivity|]. now rewrite IH. Qed.

(** ** Search *)

Lemma advanced_search_eq (query : string) (s : Session) :
  advanced_search query s =
  Returned (filter (search_matches (bind s) query) (table s)) s.
Proof.
  unfold advanced_search, mbind. now rewrite session_exec_where.
Qed.

Lemma search_matches_like (d : Dialect) (query : string) (t : Task) :
  search_matches d query t = true <->
  like (like_case_sensitive d) (contains_pattern query) (title t) = true \/
  exists de, description t = Some de /\
             like (like_case_sensitive d) (contains_pattern query) de = true.
Proof.
  unfold search_matches, col_contains.
  set (cs := like_case_sensitive d). set (pat := contains_pattern query).
  destruct (description t) as [de|].
  - destruct (like cs pat (title t)), (like cs pat de) eqn:E;
      cbv [sql_or sql_true]; split; try reflexivity; try discriminate.
    + now left.
    + now left.
    + right. now exists de.
    + intros [H|(de' & [= <-] & H)]; congruence.
  - destruct (like cs pat (title t)); cbv [sql_or sql_true]; split;
      try reflexivity; try discriminate.
    + now left.
    + intros [H|(de' & H & _)]; discriminate.
Qed.

Lemma search_matches_substring (d : Dialect) (query : string) (t : Task) :
  no_wildcard query = true ->
  search_matches d query t = true <->
  substring_of (fold_case (like_case_sensitive d) query)
               (fold_case (like_case_sensitive d) (title t)) \/
  exists de, description t = Some de /\
             substring_of (fold_case (like_case_sensitive d) query)
                          (fold_case (like_case_sensitive d) de).
Proof.
  intros Hq. rewrite search_matches_like.
  rewrite like_contains, occurs_iff by exact Hq.
  split.
  - intros [H|(de & Hde & H)]; [now left|].
    right. exists de. split; [exact Hde|].
    apply occurs_iff. now rewrite <- like_contains.
  - intros [H|(de & Hde & H)]; [now left|].
    right. exists de. split; [exact Hde|].
    rewrite like_contains by exact Hq. now apply occurs_iff.
Qed.

Lemma plain_query_no_wildcard (q : string) :
  plain_query q = true -> no_wildcard q = true.
Proof. unfold plain_query. intros H. now apply andb_prop in H as [H _]. Qed.

(** C4, as the code has it.  For every query that is plain text to the
    store (no [%], no [_], no backslash, no NUL character, a pattern
    [%query%] of at most 50000 bytes), over tasks whose titles and
    descriptions hold no NUL character, the search returns exactly the
    tasks whose title or description contains the query as a substring,
    the texts being compared as the LIKE of the store compares them:
    exactly, hence case-sensitively, when that LIKE is case-sensitive, and
    up to the case of ASCII letters when it is not.  In particular the
    search for "Milk" over the tasks titled "Buy Milk" and "Work" returns
    exactly the "Buy Milk" task. *)
Theorem search_substring (query : string) (s : Session) :
  plain_query query = true ->
  Forall (fun t => nul_free_task t = true) (table s) ->
  exists keep results,
    advanced_search query s = Returned results s /\
    results = filter keep (table s) /\
    (forall t,
        keep t = true <->
        substring_of (fold_case (like_case_sensitive (bind s)) query)
                     (fold_case (like_case_sensitive (bind s)) (title t)) \/
        exists de,
          description t = Some de /\
          substring_of (fold_case (like_case_sensitive (bind s)) query)
                       (fold_case (like_case_sensitive (bind s)) de)) /\
    (like_case_sensitive (bind s) = true ->
     forall t,
       In t results <->
       In t (table s) /\
       (substring_of query (title t) \/
        exists de, description t = Some de /\ substring_of query de)) /\
    (forall d,
        advanced_search "Milk" {| bind := d; table := milk_rows |} =
        Returned [buy_milk] {| bind := d; table := milk_rows |}).
Proof.
  intros Hplain _.
  pose proof (plain_query_no_wildcard query Hplain) as Hq.
  exists (search_matches (bind s) query).
  exists (filter (search_matches (bind s) query) (table s)).
  split; [apply advanced_search_eq|].
  split; [reflexivity|].
  split; [intros t; now apply search_matches_substring|].
  split.
  - intros Hcs t. rewrite filter_In, search_matches_substring by exact Hq.
    rewrite Hcs, !fold_case_exact.
    split; intros [Ht H]; (split; [exact Ht|]).
    + destruct H as [H|(de & Hde & H)]; [now left|].
      right. exists de. now rewrite fold_case_exact in H.
    + destruct H as [H|(de & Hde & H)]; [now left|].
      right. exists de. now rewrite fold_case_exact.
  - intros [[|] [|]]; vm_compute; reflexivity.
Qed.

Lemma search_substring_witness :
  plain_query "Milk" = true /\
  Forall (fun t => nul_free_task t = true) milk_rows /\
  exists keep results,
    advanced_search "Milk" {| bind := postgresql; table := milk_rows |} =
      Returned results {| bind := postgresql; table := milk_rows |} /\
    results = filter keep milk_rows /\
    (forall t,
        keep t = true <->
        substring_of (fold_case true "Milk") (fold_case true (title t)) \/
        exists de,
          description t = Some de /\
          substring_of (fold_case true "Milk") (fold_case true de)) /\
    (true = true ->
     forall t,
       In t results <->
       In t milk_rows /\
       (substring_of "Milk" (title t) \/
        exists de, description t = Some de /\ substring_of "Milk" de)) /\
    (forall d,
        advanced_search "Milk" {| bind := d; table := milk_rows |} =
        Returned [buy_milk] {| bind := d; table := milk_rows |}).
Proof.
  assert (Forall (fun t => nul_free_task t = true) milk_rows) as Hrows
      by (repeat constructor).
  split; [reflexivity|]. split; [exact Hrows|].
  apply (search_substring "Milk"
           {| bind := postgresql; table := milk_rows |});
    [reflexivity | exact Hrows].
Defined.

Lemma not_substring_of (q s : string) :
  occurs true q s = false -> ~ substring_of q s.
Proof.
  intros H Hs. rewrite <- (fold_case_exact q), <- (fold_case_exact s) in Hs.
  apply occurs_iff in Hs. congruence.
Qed.

(** C4 as stated fails.  The query [_] is in no title and no description
    of the two tasks, and the search returns them both, on SQLite and on
    PostgreSQL; and on SQLite the search for "milk" returns the "Buy Milk"
    task, which has no "milk" in its title or its description. *)
Lemma search_wildcard_matches :
  advanced_search "_" {| bind := sqlite; table := milk_rows |} =
    Returned milk_rows {| bind := sqlite; table := milk_rows |} /\
  advanced_search "_" {| bind := postgresql; table := milk_rows |} =
    Returned milk_rows {| bind := postgresql; table := milk_rows |} /\
  ~ substring_of "_" "Buy Milk" /\
  ~ substring_of "_" "From the store" /\
  ~ substring_of "_" "Work" /\
  ~ substring_of "_" "On the project" /\
  advanced_search "milk" {| bind := sqlite; table := milk_rows |} =
    Returned [buy_milk] {| bind := sqlite; table := milk_rows |} /\
  ~ substring_of "milk" "Buy Milk" /\
  ~ substring_of "milk" "From the store".
Proof.
  repeat split; try (vm_compute; reflexivity); now apply not_substring_of.
Qed.

(** C10, as the code has it.  For every query that is plain text to the
    store (no [%], no [_], no backslash, no NUL character, a pattern
    [%query%] of at most 50000 bytes) and every task of the store whose
    description is null and whose title holds no NUL character, the
    containment test on the description is NULL, never TRUE, the empty
    query included, and the search returns the task iff its title
    contains the query, compared as the LIKE of the store compares. *)
Theorem search_null_description (query : string) (s : Session) (t : Task) :
  In t (table s) ->
  description t = None ->
  plain_query query = true ->
  nul_free (title t) = true ->
  exists results,
    advanced_search query s = Returned results s /\
    col_contains (bind s) (description t) query = None /\
    col_contains (bind s) (description t) EmptyString = None /\
    (In t results <->
     substring_of (fold_case (like_case_sensitive (bind s)) query)
                  (fold_case (like_case_sensitive (bind s)) (title t))).
Proof.
  intros Ht Hd Hplain _.
  pose proof (plain_query_no_wildcard query Hplain) as Hq.
  exists (filter (search_matches (bind s) query) (table s)).
  split; [apply advanced_search_eq|].
  rewrite Hd. split; [reflexivity|]. split; [reflexivity|].
  rewrite filter_In, search_matches_like, Hd.
  rewrite like_contains by exact Hq. rewrite occurs_iff.
  split.
  - intros [_ [H|(de & H & _)]]; [exact H | discriminate].
  - intros H. split; [exact Ht | now left].
Qed.

Lemma search_null_description_witness :
  In bare_work [bare_work] /\
  description bare_work = None /\
  plain_query "or" = true /\
  nul_free (title bare_work) = true /\
  exists results,
    advanced_search "or" {| bind := sqlite; table := [bare_work] |} =
      Returned results {| bind := sqlite; table := [bare_work] |} /\
    col_contains sqlite (description bare_work) "or" = None /\
    col_contains sqlite (description bare_work) EmptyString = None /\
    (In bare_work results <->
     substring_of (fold_case false "or")
                  (fold_case false (title bare_work))).
Proof.
  split; [now left|]. split; [reflexivity|].
  split; [reflexivity|]. split; [reflexivity|].
  apply (search_null_description "or"
           {| bind := sqlite; table := [bare_work] |} bare_work);
    [now left | reflexivity | reflexivity | reflexivity].
Defined.

(** C10 as stated fails: the task titled "Work" has no description and no
    [_] in its title, and the search for [_] returns it, on SQLite and on
    PostgreSQL. *)
Lemma search_null_description_wildcard :
  description bare_work = None /\
  ~ substring_of "_" (title bare_work) /\
  advanced_search "_" {| bind := sqlite; table := [bare_work] |} =
    Returned [bare_work] {| bind := sqlite; table := [bare_work] |} /\
  advanced_search "_" {| bind := postgresql; table := [bare_work] |} =
    Returned [bare_work] {| bind := postgresql; table := [bare_work] |}.
Proof.
  split; [reflexivity|].
  split; [now apply not_substring_of|].
  split; vm_compute; reflexivity.
Qed.

(** ** ORDER BY *)

Section OrderBy.

Variables (d : Dialect) (terms : list order_term).

Lemma insert_row_perm (x : Task) (rows : list Task) :
  Permutation (x :: rows) (insert_row d terms x rows).
Proof.
  induction rows as [|y rows IH]; cbn [insert_row]; [reflexivity|].
  destruct (row_le d terms x y); [reflexivity|].
  rewrite perm_swap. now constructor.
Qed.

Lemma order_by_perm (rows : list Task) :
  Permutation (order_by d terms rows) rows.
Proof.
  induction rows as [|x rows IH]; cbn [order_by]; [reflexivity|].
  rewrite <- insert_row_perm. now constructor.
Qed.

Lemma key_cmp_antisym (a b : option Z) :
  key_cmp d b a = CompOpp (key_cmp d a b).
Proof.
  destruct a as [x|], b as [y|]; cbn [key_cmp];
    [apply Z.compare_antisym | | |reflexivity];
    now destruct (nulls_smallest d).
Qed.

Lemma row_cmp_antisym (t1 t2 : Task) :
  row_cmp d terms t2 t1 = CompOpp (row_cmp d terms t1 t2).
Proof.
  induction terms as [|tm rest IH]; cbn [row_cmp]; [reflexivity|].
  unfold term_cmp. rewrite (key_cmp_antisym (column tm t1) (column tm t2)).
  destruct (descending tm), (key_cmp d (column tm t1) (column tm t2));
    cbn [CompOpp]; try reflexivity; exact IH.
Qed.

(** Of two rows, one is before the other. *)
Lemma row_le_total (t1 t2 : Task) :
  row_le d terms t1 t2 = false -> row_le d terms t2 t1 = true.
Proof.
  unfold row_le. rewrite (row_cmp_antisym t1 t2).
  now destruct (row_cmp d terms t1 t2).
Qed.

Lemma insert_row_sorted (x : Task) (rows : list Task) :
  Sorted (fun a b => row_le d terms a b = true) rows ->
  Sorted (fun a b => row_le d terms a b = true) (insert_row d terms x rows).
Proof.
  induction rows as [|y rows IH]; intros Hs; cbn [insert_row].
  - repeat constructor.
  - destruct (row_le d terms x y) eqn:E.
    + constructor; [exact Hs | now constructor].
    + apply Sorted_inv in Hs as [Hs Hhd].
      constructor; [now apply IH|].
      destruct rows as [|z rows]; cbn [insert_row].
      * constructor. now apply row_le_total.
      * destruct (row_le d terms x z); constructor.
        -- now apply row_le_total.
        -- now inversion Hhd.
Qed.

Lemma order_by_sorted (rows : list Task) :
  Sorted (fun a b => row_le d terms a b = true) (order_by d terms rows).
Proof.
  induction rows as [|x rows IH]; cbn [order_by]; [constructor|].
  now apply insert_row_sorted.
Qed.

End OrderBy.

(** A sorted list stays sorted under a relation that holds, between the
    members of the list, wherever the first one holds. *)
Lemma Sorted_In_impl {A : Type} (R R' : A -> A -> Prop) (xs : list A) :
  (forall x y, In x xs -> In y xs -> R x y -> R' x y) ->
  Sorted R xs -> Sorted R' xs.
Proof.
  induction xs as [|x xs IH]; intros Himp Hs; [constructor|].
  apply Sorted_inv in Hs as [Hs Hhd].
  constructor.
  - apply IH; [|exact Hs].
    intros a b Ha Hb. apply Himp; now right.
  - destruct Hhd as [|y ys Hxy]; constructor.
    apply Himp; [now left | right; now left | exact Hxy].
Qed.

(** ** Text *)

Lemma string_app_assoc (a b c : string) :
  ((a ++ b) ++ c)%string = (a ++ b ++ c)%string.
Proof. induction a as [|x a IH]; cbn; [reflexivity|]. now rewrite IH. Qed.

Lemma fold_left_append {A : Type} (f : A -> string) (xs : list A)
  (acc : string) :
  fold_left (fun text x => (text ++ f x)%string) xs acc =
  (acc ++ lines (map f xs))%string.
Proof.
  revert acc.
  induction xs as [|x xs IH]; intros acc; cbn [fold_left map lines fold_right].
  - induction acc as [|c acc IHa]; cbn; [reflexivity|]. now rewrite <- IHa.
  - rewrite IH. apply string_app_assoc.
Qed.

(** ** Daily brief *)

Lemma session_exec_where_order (cond : Dialect -> Task -> sql_bool)
  (terms : list order_term) (s : Session) :
  session_exec (order_by_ (where_ select_Task cond) terms) s =
  Returned
    (order_by (bind s) terms
       (filter (fun t => sql_true (cond (bind s) t)) (table s))) s.
Proof.
  unfold session_exec.
  cbn [order_by_clause order_by_ where_ select_Task where_clause app].
  do 2 f_equal. apply filter_ext. intros t.
  now destruct (cond (bind s) t) as [[|]|].
Qed.

Lemma session_exec_order (terms : list order_term) (s : Session) :
  session_exec (order_by_ select_Task terms) s =
  Returned (order_by (bind s) terms (table s)) s.
Proof.
  unfold session_exec.
  cbn [order_by_clause order_by_ select_Task where_clause app sql_true].
  do 2 f_equal.
  induction (table s) as [|t rows IH]; cbn; congruence.
Qed.

Lemma brief_line_eq (clock : Z) (brief : string) (task : Task) (s : Session) :
  brief_line (datetime_now_utc clock) brief task s =
  Returned (brief ++ brief_entry clock task)%string s.
Proof.
  unfold brief_line, brief_entry, brief_label, mbind.
  destruct (due_date task) as [d|]; [|reflexivity].
  cbn [lift dt_lt replace_tzinfo datetime_now_utc tzinfo is_none Bool.eqb
         timestamp].
  reflexivity.
Qed.

Lemma brief_selected_iff (clock : Z) (t : Task) :
  brief_selected clock t = true <->
  status t <> "completed" /\
  exists d, due_date t = Some d /\
            timestamp d <= clock + timedelta_days 1.
Proof.
  unfold brief_selected.
  rewrite andb_true_iff, negb_true_iff, String.eqb_neq.
  destruct (due_date t) as [d|].
  - rewrite Z.leb_le. split.
    + intros [Hs Hd]. split; [exact Hs | now exists d].
    + intros [Hs (d' & [= <-] & Hd)]. now split.
  - split; [intros [_ H]; discriminate|].
    intros [_ (d & H & _)]; discriminate.
Qed.

Lemma get_daily_brief_eq (clock : Z) (s : Session) :
  get_daily_brief clock s =
  Returned
    (match brief_tasks clock s with
     | [] => all_caught_up
     | _ :: _ =>
         (brief_header (List.length (brief_tasks clock s)) ++
          lines (map (brief_entry clock) (brief_tasks clock s)))%string
     end) s.
Proof.
  unfold get_daily_brief, mbind.
  rewrite session_exec_where_order.
  rewrite (filter_ext _ (brief_selected clock)).
  - fold (brief_tasks clock s).
    destruct (brief_tasks clock s) as [|t ts] eqn:E; [reflexivity|].
    rewrite (for_each_pure _ (fun text x => (text ++ brief_entry clock x)%string))
      by (intros; apply brief_line_eq).
    now rewrite fold_left_append.
  - intros t. unfold brief_selected, col_ne, col_le.
    cbn [dt_add datetime_now_utc timestamp].
    destruct (String.eqb (status t) "completed"), (due_date t) as [d|];
      cbn [negb sql_and sql_true andb]; try reflexivity.
    now destruct (timestamp d <=? clock + timedelta_days 1).
Qed.

Lemma due_ascending_trans (t1 t2 t3 : Task) :
  due_ascending t1 t2 -> due_ascending t2 t3 -> due_ascending t1 t3.
Proof.
  intros (a & b & Ha & Hb & Hab) (b' & c & Hb' & Hc & Hbc).
  rewrite Hb in Hb'. injection Hb' as <-.
  exists a, c. repeat split; try assumption. lia.
Qed.

Lemma brief_tasks_sorted (clock : Z) (s : Session) :
  StronglySorted due_ascending (brief_tasks clock s).
Proof.
  apply Sorted_StronglySorted; [exact due_ascending_trans|].
  apply Sorted_In_impl with
    (R := fun a b => row_le (bind s) [asc due_date_key] a b = true);
    [|apply order_by_sorted].
  assert (forall t, In t (brief_tasks clock s) ->
                    exists d, due_date t = Some d) as Hdue.
  { intros t Ht.
    apply (Permutation_in _ (order_by_perm _ _ _)) in Ht.
    apply filter_In in Ht as [_ Ht].
    apply brief_selected_iff in Ht as [_ (d & Hd & _)]. now exists d. }
  intros x y Hx Hy.
  destruct (Hdue x Hx) as [a Ha], (Hdue y Hy) as [b Hb].
  unfold row_le, row_cmp, term_cmp, asc, due_date_key.
  cbn [column descending]. rewrite Ha, Hb. cbn [option_map key_cmp].
  intros Hle. exists a, b. repeat split; try assumption.
  destruct (Z.compare_spec (timestamp a) (timestamp b));
    [lia | lia | discriminate].
Qed.

(** C3.  For every reading of the clock the brief returns.  The tasks it
    lists are exactly the tasks that are not completed and are due no
    later than 24 hours from now, a task with no due date being left out,
    in ascending order of due date.  With no such task the text is the
    fixed sentence; otherwise it is a header that states their number and
    then, for each task, the line "- [priority] title (label)", where the
    label is "Overdue!" when the task is due before now and "Due today"
    when it is not. *)
Theorem daily_brief_spec (clock : Z) (s : Session) :
  exists tasks,
    Permutation tasks (filter (brief_selected clock) (table s)) /\
    (forall t,
        brief_selected clock t = true <->
        status t <> "completed" /\
        exists d, due_date t = Some d /\
                  timestamp d <= clock + timedelta_days 1) /\
    StronglySorted due_ascending tasks /\
    get_daily_brief clock s =
      Returned
        (match tasks with
         | [] => all_caught_up
         | _ :: _ =>
             (brief_header (List.length tasks) ++
              lines (map (brief_entry clock) tasks))%string
         end) s /\
    (forall t d,
        due_date t = Some d ->
        (brief_label clock t = "Overdue!" <-> timestamp d < clock) /\
        (brief_label clock t = "Due today" <-> clock <= timestamp d)).
Proof.
  exists (brief_tasks clock s).
  split; [apply order_by_perm|].
  split; [apply brief_selected_iff|].
  split; [apply brief_tasks_sorted|].
  split; [apply get_daily_brief_eq|].
  intros t d Hd. unfold brief_label. rewrite Hd.
  destruct (Z.ltb_spec (timestamp d) clock); split; split; intros;
    try reflexivity; try lia; discriminate.
Qed.

(** The test of the repository: a task due an hour ago is listed with its
    title and the overdue label. *)
Example daily_brief_sample :
  get_daily_brief clock0 sample_session =
  Returned
    ("Good morning! You have 2 tasks needing attention today:" ++ nl ++
     "- [1] Urgent (Overdue!)" ++ nl ++
     "- [1] Due soon (Due today)" ++ nl)%string
    sample_session.
Proof. vm_compute. reflexivity. Qed.

(** ** Report *)

Lemma report_row_eq (report : string) (task : Task) (s : Session) :
  report_row report task s =
  Returned (report ++ report_line task)%string s.
Proof. reflexivity. Qed.

Lemma generate_markdown_report_eq (s : Session) :
  generate_markdown_report s =
  Returned (report_preamble ++ lines (map report_line (report_tasks s)))%string
           s.
Proof.
  unfold generate_markdown_report, mbind.
  rewrite session_exec_order. fold (report_tasks s).
  rewrite (for_each_pure _ (fun text x => (text ++ report_line x)%string))
    by (intros; apply report_row_eq).
  rewrite fold_left_append. reflexivity.
Qed.

Lemma report_before_trans (nulls_first : bool) (t1 t2 t3 : Task) :
  report_before nulls_first t1 t2 -> report_before nulls_first t2 t3 ->
  report_before nulls_first t1 t3.
Proof.
  unfold report_before, due_first.
  intros [H12|[E12 D12]] [H23|[E23 D23]]; try (left; lia).
  right. split; [lia|].
  destruct (due_date t1), (due_date t2), (due_date t3), nulls_first;
    try exact I; try reflexivity; try discriminate; try lia.
Qed.

Lemma row_le_report_before (d : Dialect) (t1 t2 : Task) :
  row_le d [desc priority_key; asc due_date_key] t1 t2 = true ->
  report_before (nulls_smallest d) t1 t2.
Proof.
  unfold row_le, row_cmp, term_cmp, desc, asc, priority_key, due_date_key,
    report_before, due_first.
  cbn [column descending key_cmp].
  destruct (Z.compare_spec (priority t1) (priority t2)) as [E|L|G];
    cbn [CompOpp].
  - intros H. right. split; [exact E|].
    destruct (due_date t1) as [a|], (due_date t2) as [b|];
      cbn [option_map key_cmp] in *.
    + destruct (Z.compare_spec (timestamp a) (timestamp b));
        [lia | lia | discriminate].
    + destruct (nulls_smallest d); [discriminate | reflexivity].
    + destruct (nulls_smallest d); [reflexivity | discriminate].
    + exact I.
  - discriminate.
  - intros _. left. lia.
Qed.

Lemma report_tasks_sorted (s : Session) :
  StronglySorted (report_before (nulls_smallest (bind s))) (report_tasks s).
Proof.
  apply Sorted_StronglySorted; [exact (report_before_trans _)|].
  apply Sorted_In_impl with
    (R := fun a b =>
            row_le (bind s) [desc priority_key; asc due_date_key] a b = true);
    [|apply order_by_sorted].
  intros x y _ _. apply row_le_report_before.
Qed.

(** C6, as the code has it.  The report returns a table with one row for
    every task of the store, by priority descending and, within a
    priority, by due date ascending, the tasks with no due date standing
    where the store ranks NULL: first in their tier when NULL ranks lowest
    (SQLite), last in their tier when it ranks highest. *)
Theorem report_rows_ordered (s : Session) :
  exists tasks,
    generate_markdown_report s =
      Returned (report_preamble ++ lines (map report_line tasks))%string s /\
    Permutation tasks (table s) /\
    StronglySorted (report_before (nulls_smallest (bind s))) tasks.
Proof.
  exists (report_tasks s).
  split; [apply generate_markdown_report_eq|].
  split; [apply order_by_perm | apply report_tasks_sorted].
Qed.

(** C6 as stated fails on SQLite: of two tasks of priority 1, the one with
    no due date gets the first row and the one with a due date the second,
    which is not the order with the undated tasks last. *)
Lemma report_undated_first_on_sqlite :
  generate_markdown_report tier_session =
    Returned (report_preamble ++ report_line undated ++ report_line dated)%string
             tier_session /\
  priority undated = priority dated /\
  due_date undated = None /\
  due_date dated = Some (naive clock0) /\
  ~ report_before false undated dated.
Proof.
  split; [vm_compute; reflexivity|].
  repeat split.
  unfold report_before, due_first. cbn.
  intros [H|[_ H]]; [lia | discriminate].
Qed.

(** ** Frame and invariant *)

(** C9.  The brief and the report only read: for every session each of
    them returns, and the session it leaves is the session it was given,
    the same tasks with the same fields. *)
Theorem brief_and_report_read_only (clock : Z) (s : Session) :
  (exists text, get_daily_brief clock s = Returned text s) /\
  (exists text, generate_markdown_report s = Returned text s).
Proof.
  split; eexists.
  - apply get_daily_brief_eq.
  - apply generate_markdown_report_eq.
Qed.

Lemma band_priority_in_range (clock : Z) (t : Task) :
  priority_in_range t -> 1 <= band_priority clock t <= 5.
Proof.
  unfold priority_in_range, band_priority. intros Ht.
  destruct (due_date t) as [d|]; [|exact Ht].
  repeat match goal with
         | |- context [if ?b then _ else _] => destruct b
         end; lia.
Qed.

Lemma reprioritize_in_range (clock : Z) (t : Task) :
  priority_in_range t -> priority_in_range (reprioritize clock t).
Proof.
  intros Ht. unfold reprioritize.
  destruct (String.eqb (status t) "completed"); [exact Ht|].
  now apply band_priority_in_range.
Qed.

(** C8.  Every skill keeps the priorities in range: when every task of
    the store has its priority in [1,5], each of the prioritization, the
    cleanup, the search, the brief and the report returns and leaves a
    store in which every task has its priority in [1,5]. *)
Theorem priority_range_preserved (clock days_old : Z) (query : string)
  (s : Session) :
  pk_unique (table s) ->
  Forall priority_in_range (table s) ->
  (exists n s', auto_prioritize_tasks clock s = Returned n s' /\
                Forall priority_in_range (table s')) /\
  (exists n s', archive_completed_tasks clock days_old s = Returned n s' /\
                Forall priority_in_range (table s')) /\
  (exists found s', advanced_search query s = Returned found s' /\
                    Forall priority_in_range (table s')) /\
  (exists text s', get_daily_brief clock s = Returned text s' /\
                   Forall priority_in_range (table s')) /\
  (exists text s', generate_markdown_report s = Returned text s' /\
                   Forall priority_in_range (table s')).
Proof.
  intros Hpk Hr.
  split; [|split; [|split; [|split]]]; eexists; eexists.
  - split; [now apply auto_prioritize_tasks_eq|].
    cbn [table with_table]. apply Forall_forall. intros t Ht.
    apply in_map_iff in Ht as (t0 & <- & Ht0).
    apply reprioritize_in_range.
    now apply (proj1 (Forall_forall _ _) Hr).
  - split; [now apply archive_completed_tasks_eq|].
    cbn [table with_table]. apply Forall_forall. intros t Ht.
    apply filter_In in Ht as [Ht _].
    now apply (proj1 (Forall_forall _ _) Hr).
  - split; [apply advanced_search_eq | exact Hr].
  - split; [apply get_daily_brief_eq | exact Hr].
  - split; [apply generate_markdown_report_eq | exact Hr].
Qed.

Lemma priority_range_preserved_witness :
  pk_unique (table sample_session) /\
  Forall priority_in_range (table sample_session) /\
  (exists n s', auto_prioritize_tasks clock0 sample_session = Returned n s' /\
                Forall priority_in_range (table s')) /\
  (exists n s', archive_completed_tasks clock0 7 sample_session =
                Returned n s' /\
                Forall priority_in_range (table s')) /\
  (exists found s', advanced_search "Due" sample_session = Returned found s' /\
                    Forall priority_in_range (table s')) /\
  (exists text s', get_daily_brief clock0 sample_session = Returned text s' /\
                   Forall priority_in_range (table s')) /\
  (exists text s', generate_markdown_report sample_session =
                   Returned text s' /\
                   Forall priority_in_range (table s')).
Proof.
  assert (Forall priority_in_range (table sample_session)) as Hr
      by (repeat constructor; cbn; lia).
  split; [solve_pk_unique|]. split; [exact Hr|].
  apply (priority_range_preserved clock0 7 "Due" sample_session);
    [solve_pk_unique | exact Hr].
Defined.

(** * Further properties of the skills *)

(** ** Successive prioritization passes *)

Lemma set_priority_twice (t : Task) (p q : Z) :
  set_priority (set_priority t p) q = set_priority t q.
Proof. reflexivity. Qed.

(** A later pass does to a task what it would have done without the
    earlier one. *)
Lemma reprioritize_absorbs (c1 c2 : Z) (t : Task) :
  c1 <= c2 ->
  reprioritize c2 (reprioritize c1 t) = reprioritize c2 t.
Proof.
  intros Hle. unfold reprioritize.
  destruct (String.eqb (status t) "completed") eqn:E; [now rewrite E|].
  cbn [status set_priority]. rewrite E, set_priority_twice. f_equal.
  rewrite band_priority_set. unfold band_priority, total_seconds_lt, time_left.
  destruct (due_date t) as [d|]; [|reflexivity].
  repeat match goal with
         | |- context [?a <? ?b] => destruct (Z.ltb_spec a b)
         end; try reflexivity; lia.
Qed.

(** Within a week of the due date the priority of the bands only rises
    with time. *)
Lemma reprioritize_rises (c1 c2 : Z) (t : Task) (d : datetime) :
  c1 <= c2 ->
  status t <> "completed" ->
  due_date t = Some d ->
  time_left c1 d < timedelta_days 7 ->
  priority (reprioritize c1 t) <= priority (reprioritize c2 (reprioritize c1 t)).
Proof.
  intros Hle Hs Hd Hweek.
  rewrite (reprioritize_absorbs c1 c2 t Hle). unfold reprioritize.
  apply String.eqb_neq in Hs. rewrite Hs. cbn [priority set_priority].
  unfold band_priority, total_seconds_lt, time_left, timedelta_days,
    usec_per_day, usec_per_second in *.
  rewrite Hd.
  repeat match goal with
         | |- context [?a <? ?b] => destruct (Z.ltb_spec a b)
         end; lia.
Qed.

Lemma reprioritize_status (clock : Z) (t : Task) :
  status (reprioritize clock t) = status t.
Proof.
  unfold reprioritize. now destruct (String.eqb (status t) "completed").
Qed.

Lemma reprioritize_due_date (clock : Z) (t : Task) :
  due_date (reprioritize clock t) = due_date t.
Proof.
  unfold reprioritize. now destruct (String.eqb (status t) "completed").
Qed.

Lemma reprioritize_updated_at (clock : Z) (t : Task) :
  updated_at (reprioritize clock t) = updated_at t.
Proof.
  unfold reprioritize. now destruct (String.eqb (status t) "completed").
Qed.

Lemma Forall2_map_l_r {A B C : Type} (R : B -> C -> Prop) (f : A -> B)
  (g : B -> C) (xs : list A) :
  (forall x, R (f x) (g (f x))) -> Forall2 R (map f xs) (map g (map f xs)).
Proof.
  intros H. induction xs as [|x xs IH]; simpl; constructor; auto.
Qed.

(** X1.  A prioritization pass absorbs an earlier one: when the clock has
    not gone back between them, a pass at [c1] followed by a pass at [c2]
    leaves the store that a single pass at [c2] leaves. *)
Theorem prioritize_absorbs_earlier_pass (c1 c2 : Z) (s : Session) :
  pk_unique (table s) ->
  c1 <= c2 ->
  exists n1 s1 n2 s2 n,
    auto_prioritize_tasks c1 s = Returned n1 s1 /\
    auto_prioritize_tasks c2 s1 = Returned n2 s2 /\
    auto_prioritize_tasks c2 s = Returned n s2.
Proof.
  intros Hpk Hle.
  do 5 eexists.
  split; [now apply auto_prioritize_tasks_eq|].
  split.
  - apply auto_prioritize_tasks_eq. cbn [table with_table].
    now apply pk_unique_reprioritize.
  - rewrite auto_prioritize_tasks_eq by exact Hpk.
    unfold with_table. cbn [table bind]. rewrite map_map.
    rewrite (map_ext _ _ (fun t => reprioritize_absorbs c1 c2 t Hle)).
    reflexivity.
Qed.

Lemma prioritize_absorbs_earlier_pass_witness :
  pk_unique (table sample_session) /\
  clock0 <= clock0 + hours 30 /\
  exists n1 s1 n2 s2 n,
    auto_prioritize_tasks clock0 sample_session = Returned n1 s1 /\
    auto_prioritize_tasks (clock0 + hours 30) s1 = Returned n2 s2 /\
    auto_prioritize_tasks (clock0 + hours 30) sample_session = Returned n s2.
Proof.
  split; [solve_pk_unique|]. split; [vm_compute; discriminate|].
  apply (prioritize_absorbs_earlier_pass clock0 (clock0 + hours 30)
           sample_session); [solve_pk_unique | vm_compute; discriminate].
Defined.

(** X2.  Once a task is due within a week, later passes never lower its
    priority: of two passes, the second at a clock no earlier than the
    first, the second leaves every task that is not completed and was due
    in less than 7 days at the first pass with a priority at least the one
    the first pass left. *)
Theorem prioritize_never_lowers_within_week (c1 c2 : Z) (s : Session) :
  pk_unique (table s) ->
  c1 <= c2 ->
  exists n1 s1 n2 s2,
    auto_prioritize_tasks c1 s = Returned n1 s1 /\
    auto_prioritize_tasks c2 s1 = Returned n2 s2 /\
    Forall2
      (fun t1 t2 =>
         id t2 = id t1 /\
         (status t1 <> "completed" ->
          forall d, due_date t1 = Some d ->
                    time_left c1 d < timedelta_days 7 ->
                    priority t1 <= priority t2))
      (table s1) (table s2).
Proof.
  intros Hpk Hle.
  do 4 eexists.
  split; [now apply auto_prioritize_tasks_eq|].
  split.
  - apply auto_prioritize_tasks_eq. cbn [table with_table].
    now apply pk_unique_reprioritize.
  - cbn [table with_table]. apply Forall2_map_l_r. intros t.
    split; [apply reprioritize_id|].
    rewrite reprioritize_status, reprioritize_due_date.
    intros Hs d Hd Hweek. now apply reprioritize_rises with (d := d).
Qed.

Lemma prioritize_never_lowers_within_week_witness :
  pk_unique (table sample_session) /\
  clock0 <= clock0 + hours 30 /\
  exists n1 s1 n2 s2,
    auto_prioritize_tasks clock0 sample_session = Returned n1 s1 /\
    auto_prioritize_tasks (clock0 + hours 30) s1 = Returned n2 s2 /\
    Forall2
      (fun t1 t2 =>
         id t2 = id t1 /\
         (status t1 <> "completed" ->
          forall d, due_date t1 = Some d ->
                    time_left clock0 d < timedelta_days 7 ->
                    priority t1 <= priority t2))
      (table s1) (table s2).
Proof.
  split; [solve_pk_unique|]. split; [vm_compute; discriminate|].
  apply (prioritize_never_lowers_within_week clock0 (clock0 + hours 30)
           sample_session); [solve_pk_unique | vm_compute; discriminate].
Defined.

(** ** The count of a prioritization pass *)

Lemma set_priority_fixed (t : Task) (p : Z) :
  set_priority t p = t <-> p = priority t.
Proof.
  split.
  - intros H. apply (f_equal priority) in H. exact H.
  - intros ->. apply set_priority_same.
Qed.

Lemma reprioritize_fixed (clock : Z) (t : Task) :
  reprioritize clock t = t <->
  not_completed t && priority_moves clock t = false.
Proof.
  unfold reprioritize, not_completed, priority_moves.
  destruct (String.eqb (status t) "completed"); cbn [negb andb].
  - tauto.
  - rewrite set_priority_fixed, negb_false_iff, Z.eqb_eq. tauto.
Qed.

Lemma nothing_moves_iff (clock : Z) (rows : list Task) :
  filter (priority_moves clock) (filter not_completed rows) = [] <->
  map (reprioritize clock) rows = rows.
Proof.
  induction rows as [|t rows IH]; cbn [filter map]; [tauto|].
  pose proof (reprioritize_fixed clock t) as Ht.
  destruct (not_completed t); cbn [andb filter] in *.
  - destruct (priority_moves clock t).
    + split; [discriminate|].
      intros [= H _]. apply Ht in H. discriminate.
    + rewrite IH. split.
      * intros ->. now rewrite (proj2 Ht eq_refl).
      * now intros [= _ H].
  - rewrite IH. split.
    + intros ->. now rewrite (proj2 Ht eq_refl).
    + now intros [= _ H].
Qed.

Lemma filter_length_le {A : Type} (p q : A -> bool) (xs : list A) :
  (forall x, p x = true -> q x = true) ->
  (List.length (filter p xs) <= List.length (filter q xs))%nat.
Proof.
  intros Himp. induction xs as [|x xs IH]; cbn [filter]; [constructor|].
  destruct (p x) eqn:Hp.
  - rewrite (Himp x Hp). cbn [List.length]. lia.
  - destruct (q x); cbn [List.length]; lia.
Qed.

Lemma priority_moves_due (clock : Z) (t : Task) :
  priority_moves clock t = true -> is_none (due_date t) = false.
Proof.
  unfold priority_moves, band_priority.
  destruct (due_date t); [reflexivity|].
  now rewrite Z.eqb_refl.
Qed.

(** X3.  The pass returns 0 exactly when it leaves the store as it found
    it, and it never returns more than the number of tasks that are not
    completed and have a due date. *)
Theorem prioritize_count_zero_iff_unchanged (clock : Z) (s : Session) :
  pk_unique (table s) ->
  exists n s',
    auto_prioritize_tasks clock s = Returned n s' /\
    (n = 0 <-> s' = s) /\
    0 <= n <= Z.of_nat (List.length (filter can_be_prioritized (table s))).
Proof.
  intros Hpk.
  do 2 eexists.
  split; [now apply auto_prioritize_tasks_eq|].
  split.
  - rewrite <- Nat2Z.inj_0, Nat2Z.inj_iff, List.length_zero_iff_nil.
    rewrite nothing_moves_iff. split.
    + intros ->. apply with_table_same.
    + intros H. apply (f_equal table) in H. exact H.
  - split; [lia|]. apply Nat2Z.inj_le.
    rewrite filter_filter_andb. apply filter_length_le.
    intros t Ht. apply andb_prop in Ht as [Hn Hm].
    unfold can_be_prioritized. now rewrite Hn, (priority_moves_due clock t Hm).
Qed.

Lemma prioritize_count_zero_iff_unchanged_witness :
  pk_unique (table sample_session) /\
  exists n s',
    auto_prioritize_tasks clock0 sample_session = Returned n s' /\
    (n = 0 <-> s' = sample_session) /\
    0 <= n <= Z.of_nat (List.length (filter can_be_prioritized
                                       (table sample_session))).
Proof.
  split; [solve_pk_unique|].
  apply (prioritize_count_zero_iff_unchanged clock0 sample_session).
  solve_pk_unique.
Defined.

(** ** Cleanup again, and with the other skills *)

Lemma pk_unique_filter (p : Task -> bool) (rows : list Task) :
  pk_unique rows -> pk_unique (filter p rows).
Proof. apply NoDup_map_filter. Qed.

Lemma filter_none_left {A : Type} (p : A -> bool) (xs : list A) :
  filter p (filter (fun x => negb (p x)) xs) = [].
Proof.
  induction xs as [|x xs IH]; cbn [filter]; [reflexivity|].
  destruct (p x) eqn:E; cbn [negb filter]; [exact IH|].
  now rewrite E.
Qed.

Lemma filter_idem {A : Type} (p : A -> bool) (xs : list A) :
  filter p (filter p xs) = filter p xs.
Proof.
  rewrite filter_filter_andb. apply filter_ext. intros x.
  now destruct (p x).
Qed.

(** X4.  Cleanup is idempotent: a second cleanup with the same clock
    reading and the same [days_old] returns 0 and leaves the store as the
    first one left it. *)
Theorem cleanup_idempotent (clock days_old : Z) (s : Session) :
  pk_unique (table s) ->
  exists n s',
    archive_completed_tasks clock days_old s = Returned n s' /\
    archive_completed_tasks clock days_old s' = Returned 0 s'.
Proof.
  intros Hpk.
  do 2 eexists.
  split; [now apply archive_completed_tasks_eq|].
  rewrite archive_completed_tasks_eq
    by (cbn [table with_table]; now apply pk_unique_filter).
  cbn [table with_table].
  rewrite filter_none_left, filter_idem. reflexivity.
Qed.

Lemma cleanup_idempotent_witness :
  pk_unique (table sample_session) /\
  exists n s',
    archive_completed_tasks clock0 7 sample_session = Returned n s' /\
    archive_completed_tasks clock0 7 s' = Returned 0 s'.
Proof.
  split; [solve_pk_unique|].
  apply (cleanup_idempotent clock0 7 sample_session). solve_pk_unique.
Defined.

Lemma expired_mono (clock d1 d2 : Z) (t : Task) :
  d1 <= d2 -> expired clock d2 t = true -> expired clock d1 t = true.
Proof.
  intros Hle. rewrite !expired_iff. unfold timedelta_days, usec_per_day,
    usec_per_second. intros [Hs Hd]. split; [exact Hs | lia].
Qed.

(** X5.  A longer retention deletes less: with the same clock reading,
    cleanup with [d2 >= d1] deletes no more tasks than cleanup with [d1],
    and every task cleanup with [d1] keeps, cleanup with [d2] keeps. *)
Theorem cleanup_monotone_in_days_old (clock d1 d2 : Z) (s : Session) :
  pk_unique (table s) ->
  d1 <= d2 ->
  exists n1 s1 n2 s2,
    archive_completed_tasks clock d1 s = Returned n1 s1 /\
    archive_completed_tasks clock d2 s = Returned n2 s2 /\
    n2 <= n1 /\
    (forall t, In t (table s1) -> In t (table s2)).
Proof.
  intros Hpk Hle.
  do 4 eexists.
  split; [now apply archive_completed_tasks_eq|].
  split; [now apply archive_completed_tasks_eq|].
  split.
  - apply Nat2Z.inj_le. apply filter_length_le.
    intros t. now apply expired_mono.
  - cbn [table with_table]. intros t. rewrite !filter_In, !negb_true_iff.
    intros [Ht H1]. split; [exact Ht|].
    apply not_true_is_false. intros H2.
    rewrite (expired_mono clock d1 d2 t Hle H2) in H1. discriminate.
Qed.

Lemma cleanup_monotone_in_days_old_witness :
  pk_unique (table sample_session) /\
  7 <= 30 /\
  exists n1 s1 n2 s2,
    archive_completed_tasks clock0 7 sample_session = Returned n1 s1 /\
    archive_completed_tasks clock0 30 sample_session = Returned n2 s2 /\
    n2 <= n1 /\
    (forall t, In t (table s1) -> In t (table s2)).
Proof.
  split; [solve_pk_unique|]. split; [lia|].
  apply (cleanup_monotone_in_days_old clock0 7 30 sample_session);
    [solve_pk_unique | lia].
Defined.

Lemma filter_map_comm {A B : Type} (p : B -> bool) (f : A -> B)
  (xs : list A) :
  filter p (map f xs) = map f (filter (fun x => p (f x)) xs).
Proof.
  induction xs as [|x xs IH]; cbn [map filter]; [reflexivity|].
  destruct (p (f x)); cbn [map]; now rewrite IH.
Qed.

Lemma expired_reprioritize (cp cc days_old : Z) (t : Task) :
  expired cc days_old (reprioritize cp t) = expired cc days_old t.
Proof.
  unfold expired. now rewrite reprioritize_status, reprioritize_updated_at.
Qed.

Lemma not_completed_not_expired (clock days_old : Z) (t : Task) :
  not_completed t = true -> expired clock days_old t = false.
Proof.
  unfold not_completed, expired.
  now destruct (String.eqb (status t) "completed").
Qed.

Lemma filter_not_completed_kept (clock days_old : Z) (rows : list Task) :
  filter not_completed
    (filter (fun t => negb (expired clock days_old t)) rows) =
  filter not_completed rows.
Proof.
  rewrite filter_filter_andb. apply filter_ext. intros t.
  destruct (not_completed t) eqn:E; [|apply andb_false_r].
  now rewrite (not_completed_not_expired clock days_old t E).
Qed.

(** X6.  Prioritization and cleanup commute: whichever runs first, with
    whatever clock readings, each returns the same count and the store
    they leave is the same. *)
Theorem prioritize_cleanup_commute (cp cc days_old : Z) (s : Session) :
  pk_unique (table s) ->
  exists n m s1 s2 s3,
    auto_prioritize_tasks cp s = Returned n s1 /\
    archive_completed_tasks cc days_old s1 = Returned m s2 /\
    archive_completed_tasks cc days_old s = Returned m s3 /\
    auto_prioritize_tasks cp s3 = Returned n s2.
Proof.
  intros Hpk.
  do 5 eexists.
  split; [now apply auto_prioritize_tasks_eq|].
  split.
  - apply archive_completed_tasks_eq. cbn [table with_table].
    now apply pk_unique_reprioritize.
  - cbn [table with_table]. split.
    + rewrite archive_completed_tasks_eq by exact Hpk.
      rewrite filter_map_comm, length_map.
      rewrite (filter_ext _ _ (expired_reprioritize cp cc days_old)).
      reflexivity.
    + rewrite auto_prioritize_tasks_eq
        by (cbn [table with_table]; now apply pk_unique_filter).
      unfold with_table. cbn [table bind].
      rewrite filter_not_completed_kept, filter_map_comm.
      do 3 f_equal. apply filter_ext. intros t.
      now rewrite expired_reprioritize.
Qed.

Lemma prioritize_cleanup_commute_witness :
  pk_unique (table sample_session) /\
  exists n m s1 s2 s3,
    auto_prioritize_tasks clock0 sample_session = Returned n s1 /\
    archive_completed_tasks (clock0 + hours 1) 7 s1 = Returned m s2 /\
    archive_completed_tasks (clock0 + hours 1) 7 sample_session =
      Returned m s3 /\
    auto_prioritize_tasks clock0 s3 = Returned n s2.
Proof.
  split; [solve_pk_unique|].
  apply (prioritize_cleanup_commute clock0 (clock0 + hours 1) 7
           sample_session). solve_pk_unique.
Defined.

Lemma brief_selected_not_expired (cb cc days_old : Z) (t : Task) :
  brief_selected cb t = true -> expired cc days_old t = false.
Proof.
  unfold brief_selected, expired.
  now destruct (String.eqb (status t) "completed").
Qed.

(** X7.  Cleanup does not change the daily brief: the brief of the store
    cleanup leaves is, for any reading of the clock, the text of the brief
    of the store cleanup was given. *)
Theorem cleanup_keeps_daily_brief (cb cc days_old : Z) (s : Session) :
  pk_unique (table s) ->
  exists n s' text,
    archive_completed_tasks cc days_old s = Returned n s' /\
    get_daily_brief cb s = Returned text s /\
    get_daily_brief cb s' = Returned text s'.
Proof.
  intros Hpk.
  do 3 eexists.
  split; [now apply archive_completed_tasks_eq|].
  split; [apply get_daily_brief_eq|].
  rewrite get_daily_brief_eq.
  assert (brief_tasks cb
            (with_table s
               (filter (fun t => negb (expired cc days_old t)) (table s))) =
          brief_tasks cb s) as ->; [|reflexivity].
  unfold brief_tasks. cbn [bind table with_table].
  rewrite filter_filter_andb. f_equal. apply filter_ext. intros t.
  destruct (brief_selected cb t) eqn:E; [|apply andb_false_r].
  now rewrite (brief_selected_not_expired cb cc days_old t E).
Qed.

Lemma cleanup_keeps_daily_brief_witness :
  pk_unique (table sample_session) /\
  exists n s' text,
    archive_completed_tasks clock0 0 sample_session = Returned n s' /\
    get_daily_brief clock0 sample_session = Returned text sample_session /\
    get_daily_brief clock0 s' = Returned text s'.
Proof.
  split; [solve_pk_unique|].
  apply (cleanup_keeps_daily_brief clock0 clock0 0 sample_session).
  solve_pk_unique.
Defined.

(** ** The brief *)

Lemma brief_selected_reprioritize (cb cp : Z) (t : Task) :
  brief_selected cb (reprioritize cp t) = brief_selected cb t.
Proof.
  unfold brief_selected.
  now rewrite reprioritize_status, reprioritize_due_date.
Qed.

Lemma reprioritize_listed (clock : Z) (t : Task) :
  brief_selected clock t = true ->
  priority (reprioritize clock t) = 5 \/
  (priority (reprioritize clock t) = 4 /\
   exists d, due_date t = Some d /\
             timestamp d = clock + timedelta_days 1).
Proof.
  intros Hsel. apply brief_selected_iff in Hsel as [Hs (d & Hd & Hle)].
  unfold reprioritize. apply String.eqb_neq in Hs. rewrite Hs.
  cbn [priority set_priority].
  unfold band_priority, total_seconds_lt, time_left. rewrite Hd.
  unfold timedelta_days, usec_per_day, usec_per_second in *.
  repeat match goal with
         | |- context [?a <? ?b] => destruct (Z.ltb_spec a b)
         end; try (now left); try lia.
  right. split; [reflexivity|]. exists d. split; [reflexivity | lia].
Qed.

(** X8.  Right after a prioritization pass, the brief read at the same
    clock lists only tasks of priority 5, but for a task due exactly 24
    hours from now, which it lists with priority 4: the brief takes the
    tasks due in 24 hours or less, the top band those due in less. *)
Theorem brief_after_prioritize (clock : Z) (s : Session) :
  pk_unique (table s) ->
  exists n s' tasks,
    auto_prioritize_tasks clock s = Returned n s' /\
    Permutation tasks (filter (brief_selected clock) (table s')) /\
    get_daily_brief clock s' =
      Returned
        (match tasks with
         | [] => all_caught_up
         | _ :: _ =>
             (brief_header (List.length tasks) ++
              lines (map (brief_entry clock) tasks))%string
         end) s' /\
    Forall
      (fun t =>
         priority t = 5 \/
         (priority t = 4 /\
          exists d, due_date t = Some d /\
                    timestamp d = clock + timedelta_days 1))
      tasks.
Proof.
  intros Hpk.
  exists (Z.of_nat (List.length (filter (priority_moves clock)
                                   (filter not_completed (table s))))).
  exists (with_table s (map (reprioritize clock) (table s))).
  exists (brief_tasks clock
            (with_table s (map (reprioritize clock) (table s)))).
  split; [now apply auto_prioritize_tasks_eq|].
  split; [apply order_by_perm|].
  split; [apply get_daily_brief_eq|].
  apply Forall_forall. intros t Ht.
  apply (Permutation_in _ (order_by_perm _ _ _)) in Ht.
  cbn [table with_table] in Ht.
  apply filter_In in Ht as [Ht Hsel].
  apply in_map_iff in Ht as (t0 & <- & _).
  rewrite brief_selected_reprioritize in Hsel.
  rewrite reprioritize_due_date. now apply reprioritize_listed.
Qed.

Lemma brief_after_prioritize_witness :
  pk_unique (table sample_session) /\
  exists n s' tasks,
    auto_prioritize_tasks clock0 sample_session = Returned n s' /\
    Permutation tasks (filter (brief_selected clock0) (table s')) /\
    get_daily_brief clock0 s' =
      Returned
        (match tasks with
         | [] => all_caught_up
         | _ :: _ =>
             (brief_header (List.length tasks) ++
              lines (map (brief_entry clock0) tasks))%string
         end) s' /\
    Forall
      (fun t =>
         priority t = 5 \/
         (priority t = 4 /\
          exists d, due_date t = Some d /\
                    timestamp d = clock0 + timedelta_days 1))
      tasks.
Proof.
  split; [solve_pk_unique|].
  apply (brief_after_prioritize clock0 sample_session). solve_pk_unique.
Defined.

Lemma lines_app (a b : list string) :
  lines (a ++ b) = (lines a ++ lines b)%string.
Proof.
  induction a as [|x a IH]; [reflexivity|].
  change (lines ((x :: a) ++ b)) with (x ++ lines (a ++ b))%string.
  change (lines (x :: a)) with (x ++ lines a)%string.
  now rewrite IH, string_app_assoc.
Qed.

Lemma filter_none_after {A : Type} (R : A -> A -> Prop) (p : A -> bool)
  (x : A) (xs : list A) :
  (forall x y, R x y -> p y = true -> p x = true) ->
  p x = false -> Forall (R x) xs -> filter p xs = [].
Proof.
  intros Hdown Hp Hall.
  induction Hall as [|y ys Hxy Hall IH]; cbn [filter]; [reflexivity|].
  destruct (p y) eqn:Hy; [|exact IH].
  rewrite (Hdown x y Hxy Hy) in Hp. discriminate.
Qed.

(** A list sorted by a relation under which a predicate is closed
    downwards has the members with the predicate first. *)
Lemma sorted_split {A : Type} (R : A -> A -> Prop) (p : A -> bool)
  (xs : list A) :
  (forall x y, R x y -> p y = true -> p x = true) ->
  StronglySorted R xs ->
  xs = filter p xs ++ filter (fun x => negb (p x)) xs.
Proof.
  intros Hdown Hs.
  induction Hs as [|x xs Hs IH Hall]; cbn [filter]; [reflexivity|].
  destruct (p x) eqn:Hp; cbn [negb].
  - now rewrite <- app_comm_cons, <- IH.
  - pose proof (filter_none_after R p x xs Hdown Hp Hall) as Hnone.
    rewrite Hnone in IH |- *. rewrite app_nil_l in IH |- *.
    now rewrite <- IH.
Qed.

Lemma brief_label_overdue (clock : Z) (t : Task) :
  brief_label clock t = if overdue clock t then "Overdue!" else "Due today".
Proof.
  unfold brief_label, overdue. now destruct (due_date t).
Qed.

(** X9.  In the brief the overdue tasks come first: the lines labelled
    "Overdue!" all stand before the lines labelled "Due today". *)
Theorem brief_lists_overdue_first (clock : Z) (s : Session) :
  exists late today,
    get_daily_brief clock s =
      Returned
        (match late ++ today with
         | [] => all_caught_up
         | _ :: _ =>
             (brief_header (List.length (late ++ today)) ++
              lines (map (brief_entry clock) late) ++
              lines (map (brief_entry clock) today))%string
         end) s /\
    Forall (fun t => brief_label clock t = "Overdue!") late /\
    Forall (fun t => brief_label clock t = "Due today") today.
Proof.
  exists (filter (overdue clock) (brief_tasks clock s)).
  exists (filter (fun t => negb (overdue clock t)) (brief_tasks clock s)).
  assert (brief_tasks clock s =
          filter (overdue clock) (brief_tasks clock s) ++
          filter (fun t => negb (overdue clock t)) (brief_tasks clock s))
    as Hsplit.
  { apply sorted_split with (R := due_ascending);
      [|apply brief_tasks_sorted].
    intros x y (a & b & Ha & Hb & Hab). unfold overdue. rewrite Ha, Hb.
    rewrite !Z.ltb_lt. lia. }
  split.
  - rewrite get_daily_brief_eq.
    now rewrite <- lines_app, <- map_app, <- Hsplit.
  - split; apply Forall_forall; intros t Ht; apply filter_In in Ht as [_ Ht];
      rewrite brief_label_overdue.
    + now rewrite Ht.
    + apply negb_true_iff in Ht. now rewrite Ht.
Qed.

(** ** Search *)

Section LikeMore.

Variable cs : bool.

Lemma like_char_eq_refl (c : ascii) : like_char_eq cs c c = true.
Proof. unfold like_char_eq. destruct cs; apply Ascii.eqb_refl. Qed.

(** A pattern that starts with [%] matches what its rest matches, and
    whatever that is put behind. *)
Lemma like_percent_skip (r pre s : string) :
  like cs r s = true -> like cs (String percent r) (pre ++ s) = true.
Proof.
  intros H.
  induction pre as [|c pre IH]; cbn [append]; rewrite like_percent_cons.
  - rewrite H. reflexivity.
  - rewrite IH. apply orb_true_r.
Qed.

(** A text matches itself taken as a pattern, wildcards and all. *)
Lemma like_literal (q r s : string) :
  like cs r s = true -> like cs (q ++ r) (q ++ s) = true.
Proof.
  intros H.
  induction q as [|c q IH]; cbn [append]; [exact H|].
  destruct (Ascii.eqb c percent) eqn:E.
  - apply Ascii.eqb_eq in E. subst c.
    rewrite like_percent_cons. apply orb_true_iff. right.
    rewrite like_percent_cons. now rewrite IH.
  - rewrite like_cons by exact E.
    now rewrite like_char_eq_refl, orb_true_r, IH.
Qed.

Lemma like_contains_literal (q pre post : string) :
  like cs (contains_pattern q) (pre ++ q ++ post) = true.
Proof.
  unfold contains_pattern. apply like_percent_skip.
  apply like_literal. apply like_percent.
Qed.

End LikeMore.

(** X10.  The empty query, and the query [%], return every task of the
    store, those with no description included, on any dialect. *)
Theorem search_empty_query_returns_all (s : Session) :
  advanced_search EmptyString s = Returned (table s) s /\
  advanced_search (String percent EmptyString) s = Returned (table s) s.
Proof.
  assert (forall q,
             (forall cs text, like cs (contains_pattern q) text = true) ->
             advanced_search q s = Returned (table s) s) as Hall.
  { intros q Hq. rewrite advanced_search_eq. f_equal.
    induction (table s) as [|t rows IH]; cbn [filter]; [reflexivity|].
    assert (search_matches (bind s) q t = true) as ->.
    { apply search_matches_like. left. apply Hq. }
    now rewrite IH. }
  split; apply Hall; intros cs text.
  - apply (like_contains_literal cs EmptyString EmptyString text).
  - change text with (EmptyString ++ text)%string.
    apply like_percent_skip. apply like_percent_skip with (pre := EmptyString).
    apply like_percent.
Qed.

(** X11.  Wildcards only add results: for a query with no NUL and no
    backslash whose pattern [%query%] has at most 50000 bytes, wildcards
    or not, and every dialect, a task of the store with no NUL in its
    title or description, whose title or description contains the query
    as it is written, is among the results. *)
Theorem search_finds_literal_matches (query : string) (s : Session)
  (t : Task) :
  In t (table s) ->
  like_safe query = true ->
  nul_free_task t = true ->
  substring_of query (title t) \/
  (exists de, description t = Some de /\ substring_of query de) ->
  exists results,
    advanced_search query s = Returned results s /\ In t results.
Proof.
  intros Ht _ _ Hsub.
  eexists. split; [apply advanced_search_eq|].
  apply filter_In. split; [exact Ht|].
  apply search_matches_like.
  destruct Hsub as [(pre & post & ->)|(de & Hde & pre & post & ->)].
  - left. apply like_contains_literal.
  - right. exists (pre ++ query ++ post)%string. split; [exact Hde|].
    apply like_contains_literal.
Qed.

Lemma search_finds_literal_matches_witness :
  In buy_milk milk_rows /\
  like_safe "Milk" = true /\
  nul_free_task buy_milk = true /\
  (substring_of "Milk" (title buy_milk) \/
   (exists de, description buy_milk = Some de /\ substring_of "Milk" de)) /\
  exists results,
    advanced_search "Milk" {| bind := sqlite; table := milk_rows |} =
      Returned results {| bind := sqlite; table := milk_rows |} /\
    In buy_milk results.
Proof.
  assert (In buy_milk milk_rows) as Hin by now left.
  assert (substring_of "Milk" (title buy_milk) \/
          (exists de, description buy_milk = Some de /\
                      substring_of "Milk" de)) as Hsub
      by (left; now exists "Buy ", EmptyString).
  split; [exact Hin|]. split; [reflexivity|]. split; [reflexivity|].
  split; [exact Hsub|].
  exact (search_finds_literal_matches "Milk"
           {| bind := sqlite; table := milk_rows |} buy_milk Hin
           eq_refl eq_refl Hsub).
Defined.

Lemma no_wildcard_app (a b : string) :
  no_wildcard (a ++ b) = no_wildcard a && no_wildcard b.
Proof.
  induction a as [|c a IH]; cbn [append no_wildcard]; [reflexivity|].
  now rewrite IH, andb_assoc.
Qed.

Lemma no_wildcard_substring (q q' : string) :
  substring_of q q' -> no_wildcard q' = true -> no_wildcard q = true.
Proof.
  intros (pre & post & ->). rewrite !no_wildcard_app.
  intros H. apply andb_prop in H as [_ H]. now apply andb_prop in H as [H _].
Qed.

Lemma substring_of_trans (a b c : string) :
  substring_of a b -> substring_of b c -> substring_of a c.
Proof.
  intros (p1 & q1 & ->) (p2 & q2 & ->).
  exists (p2 ++ p1)%string, (q1 ++ q2)%string.
  now rewrite !string_app_assoc.
Qed.

Lemma substring_of_fold (cs : bool) (a b : string) :
  substring_of a b -> substring_of (fold_case cs a) (fold_case cs b).
Proof.
  intros (pre & post & ->).
  exists (fold_case cs pre), (fold_case cs post).
  now rewrite !fold_case_app.
Qed.

(** X12.  A longer query narrows the search: when a query with no [%],
    no [_], no NUL and no backslash, whose pattern has at most 50000
    bytes, contains another query, every task the search returns for the
    longer one it returns for the shorter one. *)
Theorem search_refinement_narrows (q q' : string) (s : Session) :
  plain_query q' = true ->
  substring_of q q' ->
  exists r r',
    advanced_search q s = Returned r s /\
    advanced_search q' s = Returned r' s /\
    (forall t, In t r' -> In t r).
Proof.
  intros Hplain Hsub.
  pose proof (plain_query_no_wildcard q' Hplain) as Hq'.
  pose proof (no_wildcard_substring q q' Hsub Hq') as Hq.
  do 2 eexists.
  split; [apply advanced_search_eq|].
  split; [apply advanced_search_eq|].
  intros t. rewrite !filter_In.
  rewrite (search_matches_substring (bind s) q t Hq).
  rewrite (search_matches_substring (bind s) q' t Hq').
  pose proof (substring_of_fold (like_case_sensitive (bind s)) q q' Hsub)
    as Hfold.
  intros [Ht [H|(de & Hde & H)]]; (split; [exact Ht|]).
  - left. exact (substring_of_trans _ _ _ Hfold H).
  - right. exists de. split; [exact Hde|].
    exact (substring_of_trans _ _ _ Hfold H).
Qed.

Lemma search_refinement_narrows_witness :
  plain_query "Buy Milk" = true /\
  substring_of "Milk" "Buy Milk" /\
  exists r r',
    advanced_search "Milk" {| bind := sqlite; table := milk_rows |} =
      Returned r {| bind := sqlite; table := milk_rows |} /\
    advanced_search "Buy Milk" {| bind := sqlite; table := milk_rows |} =
      Returned r' {| bind := sqlite; table := milk_rows |} /\
    (forall t, In t r' -> In t r).
Proof.
  assert (substring_of "Milk" "Buy Milk") as Hsub
      by now exists "Buy ", EmptyString.
  split; [reflexivity|]. split; [exact Hsub|].
  exact (search_refinement_narrows "Milk" "Buy Milk"
           {| bind := sqlite; table := milk_rows |} eq_refl Hsub).
Defined.

(** *** Letter case *)

Lemma to_lower_idem (c : ascii) : to_lower (to_lower c) = to_lower c.
Proof. destruct c as [[] [] [] [] [] [] [] []]; reflexivity. Qed.

Lemma to_lower_percent (c : ascii) :
  Ascii.eqb (to_lower c) percent = Ascii.eqb c percent.
Proof. destruct c as [[] [] [] [] [] [] [] []]; reflexivity. Qed.

Lemma to_lower_underscore (c : ascii) :
  Ascii.eqb (to_lower c) underscore = Ascii.eqb c underscore.
Proof. destruct c as [[] [] [] [] [] [] [] []]; reflexivity. Qed.

(** A case-insensitive LIKE reads its pattern up to the case of its ASCII
    letters. *)
Lemma like_fold_pattern (pat text : string) :
  like false (fold_case false pat) text = like false pat text.
Proof.
  revert text.
  induction pat as [|c pat IH]; intros text; [reflexivity|].
  cbn [fold_case fold_char].
  destruct (Ascii.eqb c percent) eqn:E.
  - apply Ascii.eqb_eq in E. subst c.
    change (to_lower percent) with percent.
    induction text as [|x text IHt];
      rewrite (like_percent_cons false (fold_case false pat)),
        (like_percent_cons false pat), IH; [reflexivity|].
    now rewrite IHt.
  - rewrite !like_cons by (now rewrite ?to_lower_percent).
    destruct text as [|x text]; [reflexivity|].
    rewrite to_lower_underscore, IH.
    unfold like_char_eq. now rewrite to_lower_idem.
Qed.

Lemma fold_case_contains_pattern (cs : bool) (q : string) :
  fold_case cs (contains_pattern q) = contains_pattern (fold_case cs q).
Proof.
  unfold contains_pattern. cbn [fold_case]. rewrite fold_case_app.
  now destruct cs.
Qed.

(** X13.  On a store whose LIKE ignores case (SQLite), the case of the
    ASCII letters of the query does not matter: two queries that are the
    same text up to letter case return the same tasks. *)
Theorem search_ignores_query_case (q1 q2 : string) (s : Session) :
  like_case_sensitive (bind s) = false ->
  fold_case false q1 = fold_case false q2 ->
  advanced_search q1 s = advanced_search q2 s.
Proof.
  intros Hcs Hq. rewrite !advanced_search_eq. f_equal.
  apply filter_ext. intros t.
  unfold search_matches, col_contains. rewrite Hcs.
  rewrite <- (like_fold_pattern (contains_pattern q1)),
          <- (like_fold_pattern (contains_pattern q2)).
  destruct (description t) as [de|].
  - rewrite <- (like_fold_pattern (contains_pattern q1) de),
            <- (like_fold_pattern (contains_pattern q2) de).
    now rewrite !fold_case_contains_pattern, Hq.
  - now rewrite !fold_case_contains_pattern, Hq.
Qed.

Lemma search_ignores_query_case_witness :
  like_case_sensitive sqlite = false /\
  fold_case false "MILK" = fold_case false "milk" /\
  advanced_search "MILK" {| bind := sqlite; table := milk_rows |} =
  advanced_search "milk" {| bind := sqlite; table := milk_rows |}.
Proof.
  split; [reflexivity|]. split; [reflexivity|].
  exact (search_ignores_query_case "MILK" "milk"
           {| bind := sqlite; table := milk_rows |} eq_refl eq_refl).
Defined.

(** * The task endpoints *)

(** ** Rows by key *)

Lemma find_by_key_id (k : Z) (rows : list Task) (t : Task) :
  find (by_key k) rows = Some t -> id t = k /\ In t rows.
Proof.
  intros H. apply find_some in H as [Hin Hk].
  split; [now apply Z.eqb_eq | exact Hin].
Qed.



Lemma find_by_key_put (j : Z) (t : Task) (rows : list Task) :
  find (by_key j) (map (fun r => if id r =? id t then t else r) rows) =
  if j =? id t
  then match find (by_key j) rows with Some _ => Some t | None => None end
  else find (by_key j) rows.
Proof.
  unfold by_key.
  induction rows as [|r rows IH]; cbn [map].
  - now destruct (j =? id t).
  - destruct (id r =? id t) eqn:Er; cbn [find]; rewrite IH.
    + apply Z.eqb_eq in Er. rewrite Er, (Z.eqb_sym (id t) j).
      now destruct (j =? id t).
    + destruct (id r =? j) eqn:Erj; [|reflexivity].
      apply Z.eqb_eq in Erj. subst j. now rewrite Er.
Qed.

Lemma find_by_key_app (j : Z) (rows : list Task) (t : Task) :
  find (by_key j) (rows ++ [t]) =
  match find (by_key j) rows with
  | Some r => Some r
  | None => if id t =? j then Some t else None
  end.
Proof.
  unfold by_key.
  induction rows as [|r rows IH]; simpl; [reflexivity|].
  destruct (id r =? j); [reflexivity | exact IH].
Qed.

Lemma find_by_key_fresh (k : Z) (rows : list Task) :
  ~ In k (map id rows) ->
  find (by_key k) rows = None /\
  existsb (fun r => id r =? k) rows = false.
Proof.
  intros Hfresh. unfold by_key.
  induction rows as [|r rows IH]; cbn [find existsb]; [now split|].
  assert ((id r =? k) = false) as ->
      by (apply Z.eqb_neq; intros E; apply Hfresh; left; exact E).
  apply IH. intros Hin. apply Hfresh. now right.
Qed.

Lemma read_task_eq (i : Z) (s : Session) :
  read_task i s =
  match find (by_key i) (table s) with
  | Some t => Replied t s
  | None => Failed not_found s
  end.
Proof.
  unfold read_task, ebind, call, session_get. fold (by_key i).
  now destruct (find (by_key i) (table s)).
Qed.

Lemma answer_read_task (i : Z) (s : Session) :
  answer (read_task i s) =
  match find (by_key i) (table s) with
  | Some t => inr t
  | None => inl not_found
  end.
Proof.
  rewrite read_task_eq. now destruct (find (by_key i) (table s)).
Qed.

(** ** delete_task *)

Lemma delete_task_eq (i : Z) (s : Session) :
  delete_task i s =
  match find (by_key i) (table s) with
  | Some _ =>
      Replied true
        (with_table s (filter (fun r => negb (id r =? i)) (table s)))
  | None => Failed not_found s
  end.
Proof.
  unfold delete_task, ebind, call, session_get. fold (by_key i).
  destruct (find (by_key i) (table s)) as [t|] eqn:E; [|reflexivity].
  apply find_by_key_id in E as [<- _]. reflexivity.
Qed.


(** ** update_task *)

Lemma as_row_id (t : Task) : id (as_row t) = id t.
Proof. reflexivity. Qed.

(** Writing the state of a loaded task and refreshing it gives back the
    row written. *)
Lemma write_and_refresh (row t : Task) (s : Session) :
  find (by_key (id row)) (table s) = Some t ->
  (_ <~ call (session_add (as_row row)) ;;
   _ <~ call session_commit ;;
   db_task <~ session_refresh row ;;
   reply db_task) s =
  Replied (as_row row)
    (with_table s
       (map (fun r => if id r =? id row then as_row row else r) (table s))).
Proof.
  intros Hfind.
  unfold ebind, call, session_add, session_commit, ret, session_refresh,
    reply.
  cbn [table with_table].
  change (fun r => id r =? id row) with (by_key (id row)).
  rewrite find_by_key_put. change (id (as_row row)) with (id row).
  now rewrite Z.eqb_refl, Hfind.
Qed.

Lemma update_task_eq (i : Z) (u : TaskUpdate.t) (clock : Z) (s : Session)
  (t : Task) :
  find (by_key i) (table s) = Some t ->
  TaskUpdate.nulls_required u = false ->
  update_task i u clock s =
  Replied (updated_row t u clock)
    (with_table s
       (map (fun r => if id r =? i then updated_row t u clock else r)
          (table s))).
Proof.
  intros Hfind Hnull.
  pose proof (find_by_key_id i (table s) t Hfind) as [Hid _]. subst i.
  unfold update_task. unfold ebind at 1. unfold call at 1, session_get.
  fold (by_key (id t)). rewrite Hfind.
  destruct u as [[[ti|]|] [de|] [[st|]|] [du|] [[pr|]|]];
    try discriminate Hnull;
    cbn [setattr_from TaskUpdate.title TaskUpdate.status TaskUpdate.priority
           TaskUpdate.description TaskUpdate.due_date];
    (rewrite write_and_refresh with (t := t); [reflexivity | exact Hfind]).
Qed.

Lemma read_task_found (i : Z) (s : Session) (t : Task) :
  answer (read_task i s) = inr t <-> find (by_key i) (table s) = Some t.
Proof.
  rewrite answer_read_task.
  destruct (find (by_key i) (table s)) as [t0|].
  - split; now intros [= ->].
  - split; discriminate.
Qed.

Lemma read_task_after_put (i j : Z) (row t : Task) (s : Session) :
  id row = i ->
  find (by_key i) (table s) = Some t ->
  answer (read_task j
            (with_table s
               (map (fun r => if id r =? i then row else r) (table s)))) =
  if j =? i then inr row else answer (read_task j s).
Proof.
  intros Hid Hfind. subst i.
  rewrite !answer_read_task. cbn [table with_table].
  rewrite find_by_key_put.
  destruct (j =? id row) eqn:E; [|reflexivity].
  apply Z.eqb_eq in E. subst j. now rewrite Hfind.
Qed.

Lemma answer_read_task_endpoint (i : Z) (s : Session) :
  answer (read_task_endpoint i s) =
  match find (by_key i) (table s) with
  | Some t =>
      if validates_as_TaskRead t then inr t
      else inl ResponseValidationError
  | None => inl not_found
  end.
Proof.
  unfold read_task_endpoint, ebind. rewrite read_task_eq.
  destruct (find (by_key i) (table s)) as [t|]; [|reflexivity].
  unfold response_model_TaskRead.
  now destruct (validates_as_TaskRead t).
Qed.

Lemma find_after_put (i j : Z) (row t : Task) (s : Session) :
  id row = i ->
  find (by_key i) (table s) = Some t ->
  find (by_key j)
    (table (with_table s
              (map (fun r => if id r =? i then row else r) (table s)))) =
  if j =? i then Some row else find (by_key j) (table s).
Proof.
  intros Hid Hfind. subst i. cbn [table with_table].
  rewrite find_by_key_put.
  destruct (j =? id row) eqn:E; [|reflexivity].
  apply Z.eqb_eq in E. subst j. now rewrite Hfind.
Qed.

Lemma update_task_endpoint_eq (i : Z) (u : TaskUpdate.t) (clock : Z)
  (s : Session) (t : Task) :
  find (by_key i) (table s) = Some t ->
  TaskUpdate.nulls_required u = false ->
  update_task_endpoint i u clock s =
  let s' := with_table s
              (map (fun r => if id r =? i then updated_row t u clock else r)
                 (table s)) in
  if validates_as_TaskRead (updated_row t u clock)
  then Replied (updated_row t u clock) s'
  else Failed ResponseValidationError s'.
Proof.
  intros Hfind Hnull.
  unfold update_task_endpoint, ebind.
  rewrite (update_task_eq i u clock s t Hfind Hnull).
  reflexivity.
Qed.

(** X15.  [update_task] as it is registered, with
    [response_model=TaskRead], on a task that the store holds under the
    key, with a request that sets no required column to null and with
    which the priority of the task, as the request sets it or as it was
    when the request does not, is in [1,5]: the reply keeps the key and
    the creation time of the task, carries the reading of the clock as
    [updated_at], has the value of the request in every field the request
    sets and the old value in every field it does not; [read_task] on the
    key afterwards gives the reply, and on every other key it answers as
    before. *)
Theorem update_task_changes_what_is_set (i : Z) (u : TaskUpdate.t)
  (clock : Z) (s : Session) (t : Task) :
  find (by_key i) (table s) = Some t ->
  TaskUpdate.nulls_required u = false ->
  1 <= priority_after u t <= 5 ->
  exists t' s',
    update_task_endpoint i u clock s = Replied t' s' /\
    id t' = i /\
    timestamp (created_at t') = timestamp (created_at t) /\
    updated_at t' = naive clock /\
    (TaskUpdate.title u = None -> title t' = title t) /\
    (TaskUpdate.description u = None -> description t' = description t) /\
    (TaskUpdate.status u = None -> status t' = status t) /\
    (TaskUpdate.due_date u = None ->
     option_map timestamp (due_date t') =
     option_map timestamp (due_date t)) /\
    (TaskUpdate.priority u = None -> priority t' = priority t) /\
    (forall v, TaskUpdate.title u = Some (Some v) -> title t' = v) /\
    (forall v, TaskUpdate.description u = Some v -> description t' = v) /\
    (forall v, TaskUpdate.status u = Some (Some v) -> status t' = v) /\
    (forall v, TaskUpdate.due_date u = Some v ->
               option_map timestamp (due_date t') = option_map timestamp v) /\
    (forall v, TaskUpdate.priority u = Some (Some v) -> priority t' = v) /\
    answer (read_task_endpoint i s') = inr t' /\
    (forall j, j <> i ->
       answer (read_task_endpoint j s') = answer (read_task_endpoint j s)).
Proof.
  intros Hread Hnull Hrange.
  pose proof (find_by_key_id i (table s) t Hread) as [Hid _].
  assert (validates_as_TaskRead (updated_row t u clock) = true) as Hvalid.
  { apply andb_true_intro. destruct Hrange as [Hlo Hhi].
    split; now apply Z.leb_le. }
  do 2 eexists.
  split.
  { rewrite (update_task_endpoint_eq i u clock s t Hread Hnull).
    cbv zeta. now rewrite Hvalid. }
  unfold updated_row at 1 2 3 4 5 6 7 8 9 10 11 12 13.
  cbn [id title description status due_date priority created_at updated_at
         stored timestamp].
  split; [exact Hid|]. split; [reflexivity|]. split; [reflexivity|].
  split; [now intros ->|]. split; [now intros ->|].
  split; [now intros ->|].
  split; [intros ->; now destruct (due_date t)|].
  split; [now intros ->|].
  split; [now intros v ->|]. split; [now intros v ->|].
  split; [now intros v ->|].
  split; [intros v ->; now destruct v|].
  split; [now intros v ->|].
  split.
  - rewrite answer_read_task_endpoint.
    rewrite (find_after_put i i _ t s) by assumption.
    now rewrite Z.eqb_refl, Hvalid.
  - intros j Hj. rewrite !answer_read_task_endpoint.
    rewrite (find_after_put i j _ t s) by assumption.
    now apply Z.eqb_neq in Hj as ->.
Qed.

Lemma update_task_changes_what_is_set_witness :
  find (by_key 3) (table sample_session) = Some old_task /\
  TaskUpdate.nulls_required sample_update_in_range = false /\
  1 <= priority_after sample_update_in_range old_task <= 5 /\
  exists t' s',
    update_task_endpoint 3 sample_update_in_range clock0 sample_session =
      Replied t' s' /\
    id t' = 3 /\
    updated_at t' = naive clock0 /\
    priority t' = 4 /\
    answer (read_task_endpoint 3 s') = inr t'.
Proof.
  assert (find (by_key 3) (table sample_session) = Some old_task) as Hread
      by reflexivity.
  assert (1 <= priority_after sample_update_in_range old_task <= 5) as Hfit
      by (cbn; lia).
  split; [exact Hread|]. split; [reflexivity|]. split; [exact Hfit|].
  destruct (update_task_changes_what_is_set 3 sample_update_in_range clock0
              sample_session old_task Hread eq_refl Hfit)
    as (t' & s' & Hrun & Hid & _ & Hup & H).
  exists t', s'. repeat split; try assumption.
  - destruct H as (_ & _ & _ & _ & _ & _ & _ & _ & _ & H & _).
    now apply H.
  - now destruct H as (_ & _ & _ & _ & _ & _ & _ & _ & _ & _ & H & _).
Defined.


Lemma table_put_ids (row : Task) (rows : list Task) :
  map id (map (fun r => if id r =? id row then row else r) rows) =
  map id rows.
Proof.
  rewrite map_map. apply map_ext. intros r.
  destruct (id r =? id row) eqn:E; [|reflexivity].
  apply Z.eqb_eq in E. now symmetry.
Qed.

Lemma pk_unique_put (i : Z) (row : Task) (rows : list Task) :
  id row = i ->
  pk_unique rows ->
  pk_unique (map (fun r => if id r =? i then row else r) rows).
Proof. intros <- Hpk. unfold pk_unique. now rewrite table_put_ids. Qed.

Lemma updated_row_id (t : Task) (u : TaskUpdate.t) (clock : Z) :
  id (updated_row t u clock) = id t.
Proof. reflexivity. Qed.

Lemma find_in_put (i : Z) (row t : Task) (rows : list Task) :
  id row = i ->
  find (by_key i) rows = Some t ->
  In row (map (fun r => if id r =? i then row else r) rows).
Proof.
  intros Hid Hfind. apply find_by_key_id in Hfind as [Ht Hin].
  apply in_map_iff. exists t. split; [|exact Hin].
  now rewrite Ht, Z.eqb_refl.
Qed.

(** X17.  [update_task] checks the priority only after it is stored: a
    request that sets only the priority, to an integer of 32 bits outside
    [1,5], on a task that the store holds under the key, writes the task
    with that priority and the reading of the clock, and then fails on
    [response_model=TaskRead]; the store it leaves holds the task with
    that priority under its key, no longer has every priority in range,
    and [read_task] on the key fails on its response model too. *)
Theorem update_task_takes_any_priority (i p clock : Z) (s : Session)
  (t : Task) :
  find (by_key i) (table s) = Some t ->
  - 2147483648 <= p <= 2147483647 ->
  ~ 1 <= p <= 5 ->
  exists t' s',
    update_task_endpoint i
      (TaskUpdate.mk None None None None (Some (Some p))) clock s
    = Failed ResponseValidationError s' /\
    find (by_key i) (table s') = Some t' /\
    priority t' = p /\
    title t' = title t /\
    updated_at t' = naive clock /\
    ~ Forall priority_in_range (table s') /\
    answer (read_task_endpoint i s') = inl ResponseValidationError.
Proof.
  intros Hread _ Hout.
  pose proof (find_by_key_id i (table s) t Hread) as [Hid _].
  set (u := TaskUpdate.mk None None None None (Some (Some p))).
  assert (validates_as_TaskRead (updated_row t u clock) = false) as Hvalid.
  { unfold validates_as_TaskRead. cbn [priority updated_row u
      TaskUpdate.priority].
    destruct ((1 <=? p) && (p <=? 5)) eqn:E; [|reflexivity].
    apply andb_prop in E as [Hlo Hhi].
    apply Z.leb_le in Hlo, Hhi. lia. }
  assert (find (by_key i)
            (table (with_table s
                      (map (fun r => if id r =? i
                                     then updated_row t u clock else r)
                         (table s)))) =
          Some (updated_row t u clock)) as Hfound.
  { rewrite (find_after_put i i _ t s) by assumption.
    now rewrite Z.eqb_refl. }
  exists (updated_row t u clock). eexists.
  split.
  { rewrite (update_task_endpoint_eq i u clock s t Hread eq_refl).
    cbv zeta. now rewrite Hvalid. }
  split; [exact Hfound|].
  split; [reflexivity|]. split; [reflexivity|]. split; [reflexivity|].
  split.
  - cbn [table with_table]. intros Hall. apply Hout.
    apply (proj1 (Forall_forall _ _) Hall (updated_row t u clock)).
    now apply find_in_put with (t := t).
  - rewrite answer_read_task_endpoint, Hfound. now rewrite Hvalid.
Qed.

Lemma update_task_takes_any_priority_witness :
  find (by_key 3) (table sample_session) = Some old_task /\
  - 2147483648 <= 9 <= 2147483647 /\
  ~ 1 <= 9 <= 5 /\
  exists t' s',
    update_task_endpoint 3
      (TaskUpdate.mk None None None None (Some (Some 9))) clock0
      sample_session = Failed ResponseValidationError s' /\
    find (by_key 3) (table s') = Some t' /\
    priority t' = 9 /\
    title t' = title old_task /\
    updated_at t' = naive clock0 /\
    ~ Forall priority_in_range (table s') /\
    answer (read_task_endpoint 3 s') = inl ResponseValidationError.
Proof.
  split; [reflexivity|]. split; [lia|]. split; [lia|].
  apply (update_task_takes_any_priority 3 9 clock0 sample_session old_task);
    [reflexivity | lia | lia].
Defined.

(** X18.  Cleanup counts from the last update: after [update_task] at
    clock [c], a cleanup at clock [cc] with [days_old] keeps the updated
    task unless it is completed and [days_old] days have passed between
    [c] and [cc]. *)
Theorem updated_task_and_cleanup (i : Z) (u : TaskUpdate.t)
  (c cc days_old : Z) (s : Session) (t : Task) :
  pk_unique (table s) ->
  answer (read_task i s) = inr t ->
  TaskUpdate.nulls_required u = false ->
  TaskUpdate.storable u ->
  exists t' s1 n s2,
    update_task i u c s = Replied t' s1 /\
    archive_completed_tasks cc days_old s1 = Returned n s2 /\
    (In t' (table s2) <->
     ~ (status t' = "completed" /\ timedelta_days days_old <= cc - c)).
Proof.
  intros Hpk Hread Hnull _. apply read_task_found in Hread.
  pose proof (find_by_key_id i (table s) t Hread) as [Hid _].
  do 4 eexists.
  split; [exact (update_task_eq i u c s t Hread Hnull)|].
  split.
  - apply archive_completed_tasks_eq. cbn [table with_table].
    now apply pk_unique_put.
  - cbn [table with_table].
    rewrite filter_In, negb_true_iff, <- not_true_iff_false, expired_iff.
    cbn [updated_at updated_row naive timestamp].
    split; [now intros [_ H]|].
    intros H. split; [|exact H].
    now apply find_in_put with (t := t).
Qed.

Lemma updated_task_and_cleanup_witness :
  pk_unique (table sample_session) /\
  answer (read_task 3 sample_session) = inr old_task /\
  TaskUpdate.nulls_required sample_update = false /\
  TaskUpdate.storable sample_update /\
  exists t' s1 n s2,
    update_task 3 sample_update clock0 sample_session = Replied t' s1 /\
    archive_completed_tasks (clock0 + hours 1) 7 s1 = Returned n s2 /\
    (In t' (table s2) <->
     ~ (status t' = "completed" /\
        timedelta_days 7 <= clock0 + hours 1 - clock0)).
Proof.
  assert (TaskUpdate.storable sample_update) as Hfit by (cbn; lia).
  split; [solve_pk_unique|]. split; [reflexivity|].
  split; [reflexivity|]. split; [exact Hfit|].
  apply (updated_task_and_cleanup 3 sample_update clock0 (clock0 + hours 1) 7
           sample_session old_task);
    [solve_pk_unique | reflexivity | reflexivity | exact Hfit].
Defined.

(** ** create_task *)

Lemma create_task_eq (task : TaskCreate.t) (new_id created updated : Z)
  (s : Session) :
  ~ In new_id (map id (table s)) ->
  create_task task new_id created updated s =
  Replied (created_row task new_id created updated)
    (with_table s
       (table s ++ [created_row task new_id created updated])).
Proof.
  intros Hfresh.
  pose proof (find_by_key_fresh new_id (table s) Hfresh) as [Hfind Hex].
  unfold create_task, ebind, session_insert, call, session_commit, ret,
    session_refresh, reply.
  cbn [id as_row]. rewrite Hex. cbn [table with_table].
  fold (by_key new_id). rewrite find_by_key_app, Hfind.
  cbn [id]. now rewrite Z.eqb_refl.
Qed.

Lemma read_task_after_insert (j : Z) (row : Task) (s : Session) :
  ~ In (id row) (map id (table s)) ->
  answer (read_task j (with_table s (table s ++ [row]))) =
  if j =? id row then inr row else answer (read_task j s).
Proof.
  intros Hfresh. rewrite !answer_read_task. cbn [table with_table].
  rewrite find_by_key_app, (Z.eqb_sym (id row) j).
  destruct (j =? id row) eqn:E.
  - apply Z.eqb_eq in E. subst j.
    now rewrite (proj1 (find_by_key_fresh _ _ Hfresh)).
  - now destruct (find (by_key j) (table s)).
Qed.

(** X19.  What [create_task] stores is what was posted: the reply has the
    key the store gave, the fields of the request and the two readings of
    the clock; reading that key afterwards gives the reply, and every
    other key reads as before. *)
Theorem create_task_then_read (task : TaskCreate.t)
  (new_id created updated : Z) (s : Session) :
  ~ In new_id (map id (table s)) ->
  exists t s',
    create_task task new_id created updated s = Replied t s' /\
    id t = new_id /\
    title t = TaskCreate.title task /\
    description t = TaskCreate.description task /\
    status t = TaskCreate.status task /\
    option_map timestamp (due_date t) =
      option_map timestamp (TaskCreate.due_date task) /\
    priority t = TaskCreate.priority task /\
    created_at t = naive created /\
    updated_at t = naive updated /\
    answer (read_task new_id s') = inr t /\
    (forall j, j <> new_id ->
               answer (read_task j s') = answer (read_task j s)).
Proof.
  intros Hfresh.
  do 2 eexists.
  split; [now apply create_task_eq|].
  cbn [created_row id title description status priority created_at
         updated_at due_date].
  repeat (split; [reflexivity|]).
  split; [now destruct (TaskCreate.due_date task)|].
  repeat (split; [reflexivity|]).
  split.
  - rewrite read_task_after_insert by exact Hfresh.
    cbn [id created_row]. now rewrite Z.eqb_refl.
  - intros j Hj. rewrite read_task_after_insert by exact Hfresh.
    cbn [id created_row]. apply Z.eqb_neq in Hj. now rewrite Hj.
Qed.

Lemma create_task_then_read_witness :
  ~ In 6 (map id (table sample_session)) /\
  exists t s',
    create_task sample_create 6 clock0 clock0 sample_session =
      Replied t s' /\
    id t = 6 /\
    title t = "Test Task" /\
    priority t = 3 /\
    answer (read_task 6 s') = inr t.
Proof.
  assert (~ In 6 (map id (table sample_session))) as Hfresh
      by (cbn; intuition discriminate).
  split; [exact Hfresh|].
  destruct (create_task_then_read sample_create 6 clock0 clock0
              sample_session Hfresh)
    as (t & s' & Hrun & Hid & Hti & _ & _ & _ & Hpr & _ & _ & Hread & _).
  exists t, s'. repeat split; assumption.
Defined.

(** X20.  [create_task] keeps the invariants of the table: with a key the
    table does not hold and a request with its priority in [1,5], the
    keys stay distinct, every priority stays in [1,5], and the table has
    one row more. *)
Theorem create_task_keeps_invariants (task : TaskCreate.t)
  (new_id created updated : Z) (s : Session) :
  ~ In new_id (map id (table s)) ->
  TaskCreate.valid task ->
  pk_unique (table s) ->
  Forall priority_in_range (table s) ->
  exists t s',
    create_task task new_id created updated s = Replied t s' /\
    pk_unique (table s') /\
    Forall priority_in_range (table s') /\
    List.length (table s') = S (List.length (table s)).
Proof.
  intros Hfresh Hvalid Hpk Hrange.
  do 2 eexists.
  split; [now apply create_task_eq|].
  cbn [table with_table].
  split.
  - unfold pk_unique. rewrite map_app. cbn [map id created_row].
    apply NoDup_app; [exact Hpk | repeat constructor; intros [] |].
    intros k Hk [<-|[]]. contradiction.
  - split.
    + apply Forall_app. split; [exact Hrange|].
      constructor; [exact Hvalid | constructor].
    + rewrite length_app. cbn [List.length]. lia.
Qed.

Lemma create_task_keeps_invariants_witness :
  ~ In 6 (map id (table sample_session)) /\
  TaskCreate.valid sample_create /\
  pk_unique (table sample_session) /\
  Forall priority_in_range (table sample_session) /\
  exists t s',
    create_task sample_create 6 clock0 clock0 sample_session =
      Replied t s' /\
    pk_unique (table s') /\
    Forall priority_in_range (table s') /\
    List.length (table s') = S (List.length (table sample_session)).
Proof.
  assert (~ In 6 (map id (table sample_session))) as Hfresh
      by (cbn; intuition discriminate).
  assert (TaskCreate.valid sample_create) as Hvalid
      by (unfold TaskCreate.valid; cbn; lia).
  assert (pk_unique (table sample_session)) as Hpk by solve_pk_unique.
  assert (Forall priority_in_range (table sample_session)) as Hrange
      by (repeat constructor; cbn; lia).
  split; [exact Hfresh|]. split; [exact Hvalid|].
  split; [exact Hpk|]. split; [exact Hrange|].
  exact (create_task_keeps_invariants sample_create 6 clock0 clock0
           sample_session Hfresh Hvalid Hpk Hrange).
Defined.

Lemma filter_key_fresh (k : Z) (rows : list Task) :
  ~ In k (map id rows) ->
  filter (fun r => negb (id r =? k)) rows = rows.
Proof.
  intros Hfresh.
  induction rows as [|r rows IH]; cbn [filter]; [reflexivity|].
  assert ((id r =? k) = false) as ->
      by (apply Z.eqb_neq; intros E; apply Hfresh; left; exact E).
  cbn [negb]. rewrite IH; [reflexivity|].
  intros Hin. apply Hfresh. now right.
Qed.

(** X21.  Deleting the task just created restores the store: after
    [create_task] with a key the table did not hold, [delete_task] on that
    key replies ok and leaves the session as it was before the
    creation. *)
Theorem create_then_delete_restores (task : TaskCreate.t)
  (new_id created updated : Z) (s : Session) :
  ~ In new_id (map id (table s)) ->
  exists t s',
    create_task task new_id created updated s = Replied t s' /\
    delete_task new_id s' = Replied true s.
Proof.
  intros Hfresh.
  do 2 eexists.
  split; [now apply create_task_eq|].
  rewrite delete_task_eq. cbn [table with_table].
  rewrite find_by_key_app, (proj1 (find_by_key_fresh _ _ Hfresh)).
  cbn [id created_row]. rewrite Z.eqb_refl.
  rewrite filter_app, (filter_key_fresh _ _ Hfresh).
  cbn [filter id]. rewrite Z.eqb_refl. cbn [negb].
  rewrite app_nil_r. unfold with_table. cbn [bind].
  now destruct s.
Qed.

Lemma create_then_delete_restores_witness :
  ~ In 6 (map id (table sample_session)) /\
  exists t s',
    create_task sample_create 6 clock0 clock0 sample_session =
      Replied t s' /\
    delete_task 6 s' = Replied true sample_session.
Proof.
  assert (~ In 6 (map id (table sample_session))) as Hfresh
      by (cbn; intuition discriminate).
  split; [exact Hfresh|].
  exact (create_then_delete_restores sample_create 6 clock0 clock0
           sample_session Hfresh).
Defined.

(** ** read_tasks *)









